(** * A shape-editing canvas widget: model of its handlers and of the
      JSON export/import of its document

    The development follows the three source files:
    - [Paint/func.ts]   : pen colours and the tag tests on shapes;
    - [Paint/index.tsx] : the draw session, selection and the shape nodes;
    - [Main/index.tsx]  : the host, owner of the shape list, and the JSON
      export and import of the document.

    React state is modelled by explicit state passing: a handler is a
    function from the state before the event to the state after it, and a
    callback invoked on the host is returned as a value.  The platform
    functions the handlers call ([Math.abs], [Math.floor],
    [String.prototype.substring], [JSON.stringify], [JSON.parse]) are
    modelled in the modules [JS] and [JSON]. *)

From Stdlib Require Import ZArith NArith List Bool Lia String Ascii.
From Stdlib Require Import Decimal DecimalFacts DecimalN.
From stdpp Require Import base option numbers list.

Local Open Scope Z_scope.

(** ** JavaScript strings and numbers *)
Module JS.

(** A JavaScript string is a sequence of UTF-16 code units. *)
Definition jsstring := list N.

(** The code units of an ASCII literal of the source. *)
Definition js (s : string) : jsstring :=
  List.map N_of_ascii (list_ascii_of_string s).

(** [a === b] on strings. *)
Definition str_eqb (a b : jsstring) : bool := bool_decide (a = b).

(** [s.substring(start, stop)]: both indices are clamped to [0, length],
    and swapped when [start] is the larger one. *)
Definition substring (s : jsstring) (start stop : Z) : jsstring :=
  let len := Z.of_nat (length s) in
  let a := Z.min (Z.max start 0) len in
  let b := Z.min (Z.max stop 0) len in
  let lo := Z.min a b in
  let hi := Z.max a b in
  take (Z.to_nat (hi - lo)) (drop (Z.to_nat lo) s).

(** A JavaScript number.  [Fin m k] is the finite value [m / 10^k]; every
    binary64 value is such a decimal fraction, and so is every number a
    JSON text can denote.  [NaN] and the two infinities are kept, as
    arithmetic and [JSON.stringify] treat them specially.  The rounding and
    the range of binary64 and the sign of zero are not modelled: finite
    arithmetic is exact.  The model agrees with the code where the code's
    own result is exact, as it is for sums and differences of integers
    within [-2^53, 2^53]; beyond that the code rounds, and overflows to an
    infinity, where the model does not.  A property that needs the two to
    agree states the range as a hypothesis. *)
Inductive number :=
| Fin (m : Z) (k : nat)
| NaN
| Inf (neg : bool).

Definition int (z : Z) : number := Fin z 0.

(** The normal form of [m / 10^k]: no trailing zero in the fraction. *)
Fixpoint normalize (m : Z) (k : nat) : number :=
  match k with
  | O => Fin m 0
  | S k' => if (m mod 10 =? 0) then normalize (m / 10) k' else Fin m k
  end.

Definition canonical (n : number) : bool :=
  match n with
  | Fin m k => match k with O => true | S _ => negb (m mod 10 =? 0) end
  | _ => true
  end.

Definition is_finite (n : number) : bool :=
  match n with Fin _ _ => true | _ => false end.

(** A finite number in normal form.  Every finite number has exactly one
    normal form, and the arithmetic of the handlers and the parser of
    [JSON] yield normal forms only. *)
Definition finite (n : number) : bool := is_finite n && canonical n.
Arguments finite : simpl never.

(** [a - b]. *)
Definition num_sub (a b : number) : number :=
  match a, b with
  | Fin m1 k1, Fin m2 k2 =>
      normalize (m1 * 10 ^ Z.of_nat k2 - m2 * 10 ^ Z.of_nat k1) (k1 + k2)
  | NaN, _ | _, NaN => NaN
  | Inf s, Fin _ _ => Inf s
  | Fin _ _, Inf t => Inf (negb t)
  | Inf s, Inf t => if Bool.eqb s t then NaN else Inf s
  end.

(** [a / 2]. *)
Definition num_div2 (a : number) : number :=
  match a with
  | Fin m k => normalize (5 * m) (S k)
  | NaN => NaN
  | Inf s => Inf s
  end.

(** [Math.abs(a)]. *)
Definition Math_abs (a : number) : number :=
  match a with
  | Fin m k => Fin (Z.abs m) k
  | NaN => NaN
  | Inf _ => Inf false
  end.

(** [Math.floor(a)]. *)
Definition Math_floor (a : number) : number :=
  match a with
  | Fin m k => Fin (m / 10 ^ Z.of_nat k) 0
  | NaN => NaN
  | Inf s => Inf s
  end.

(** [a < b] and [a <= b]; both are false as soon as one side is [NaN]. *)
Definition num_ltb (a b : number) : bool :=
  match a, b with
  | Fin m1 k1, Fin m2 k2 => m1 * 10 ^ Z.of_nat k2 <? m2 * 10 ^ Z.of_nat k1
  | NaN, _ | _, NaN => false
  | Inf s, Fin _ _ => s
  | Fin _ _, Inf t => negb t
  | Inf s, Inf t => s && negb t
  end.

Definition num_leb (a b : number) : bool :=
  match a, b with
  | Fin m1 k1, Fin m2 k2 => m1 * 10 ^ Z.of_nat k2 <=? m2 * 10 ^ Z.of_nat k1
  | NaN, _ | _, NaN => false
  | Inf s, Fin _ _ => s
  | Fin _ _, Inf t => negb t
  | Inf s, Inf t => s || negb t
  end.

(** The decimal digits of a natural number, as code units. *)
Fixpoint uint_units (u : Decimal.uint) : jsstring :=
  match u with
  | Decimal.Nil => []
  | Decimal.D0 u => 48%N :: uint_units u
  | Decimal.D1 u => 49%N :: uint_units u
  | Decimal.D2 u => 50%N :: uint_units u
  | Decimal.D3 u => 51%N :: uint_units u
  | Decimal.D4 u => 52%N :: uint_units u
  | Decimal.D5 u => 53%N :: uint_units u
  | Decimal.D6 u => 54%N :: uint_units u
  | Decimal.D7 u => 55%N :: uint_units u
  | Decimal.D8 u => 56%N :: uint_units u
  | Decimal.D9 u => 57%N :: uint_units u
  end.

(** The digits of the finite value [m / 10^k] without its sign: the
    digits of [|m|], padded with zeros on the left so that one digit
    stands before the point, and the point before the last [k] digits. *)
Definition fin_units (m : Z) (k : nat) : jsstring :=
  let cs := uint_units (N.to_uint (Z.abs_N m)) in
  let cs' := repeat 48%N (S k - length cs) ++ cs in
  let n := (length cs' - k)%nat in
  take n cs' ++ match k with O => [] | S _ => 46%N :: drop n cs' end.

(** [String(a)], as a template literal inserts a number.  (The exponent
    notation JavaScript uses from [1e21] on and below [1e-6] is not
    modelled: the digits are written out.) *)
Definition Number_toString (a : number) : jsstring :=
  match a with
  | Fin m k => (if m <? 0 then [45%N] else []) ++ fin_units m k
  | NaN => js "NaN"
  | Inf false => js "Infinity"
  | Inf true => js "-Infinity"
  end.

(** [a + b], [a * b] and the remainder [a % b], which has the sign of
    [a].  Sum and product are the exact ones: the code's sum is rounded
    for operands beyond [2^53], and its product can overflow. *)
Definition num_add (a b : number) : number :=
  match a, b with
  | Fin m1 k1, Fin m2 k2 =>
      normalize (m1 * 10 ^ Z.of_nat k2 + m2 * 10 ^ Z.of_nat k1) (k1 + k2)
  | NaN, _ | _, NaN => NaN
  | Inf s, Fin _ _ => Inf s
  | Fin _ _, Inf t => Inf t
  | Inf s, Inf t => if Bool.eqb s t then Inf s else NaN
  end.


Definition num_rem (a b : number) : number :=
  match a, b with
  | Fin m1 k1, Fin m2 k2 =>
      if m2 =? 0 then NaN
      else normalize (Z.rem (m1 * 10 ^ Z.of_nat k2) (m2 * 10 ^ Z.of_nat k1))
             (k1 + k2)
  | NaN, _ | _, NaN => NaN
  | Inf _, _ => NaN
  | Fin m k, Inf _ => Fin m k
  end.

End JS.
Export JS.

(** ** [JSON.stringify] and [JSON.parse] *)
Module JSON.

(** The values a JSON text denotes.  An object lists its properties in
    order, each key once. *)
#[local] Unset Elimination Schemes.
Inductive value :=
| JNull
| JBool (b : bool)
| JNum (n : number)
| JStr (s : jsstring)
| JArr (l : list value)
| JObj (fields : list (jsstring * value)).
#[local] Set Elimination Schemes.

(** *** Writing *)

Definition hex_digit (n : N) : N :=
  (if n <? 10 then 48 + n else 87 + n)%N.

(** The escape of one code unit inside a string literal. *)
Definition escape_unit (c : N) : jsstring :=
  (if c =? 34 then [92; 34]
   else if c =? 92 then [92; 92]
   else if c =? 8 then [92; 98]
   else if c =? 12 then [92; 102]
   else if c =? 10 then [92; 110]
   else if c =? 13 then [92; 114]
   else if c =? 9 then [92; 116]
   else if c <? 32 then
     [92; 117; 48; 48; hex_digit (c / 16); hex_digit (c mod 16)]
   else [c])%N.

Definition quote (s : jsstring) : jsstring :=
  34%N :: flat_map escape_unit s ++ [34%N].

(** The items of an array or of an object, separated by commas. *)
Definition join (items : list jsstring) : jsstring :=
  match items with
  | [] => []
  | x :: r => x ++ flat_map (fun y => 44%N :: y) r
  end.

(** [JSON.stringify(v)] without indentation.  A number that is not finite
    is written [null].  (JavaScript also writes a lone surrogate as an
    escape; here it is written as it is, and read back to the same unit
    either way.) *)
Fixpoint stringify (v : value) : jsstring :=
  match v with
  | JNull => js "null"
  | JBool true => js "true"
  | JBool false => js "false"
  | JNum n => if is_finite n then Number_toString n else js "null"
  | JStr s => quote s
  | JArr l => 91%N :: join (List.map stringify l) ++ [93%N]
  | JObj fields =>
      123%N ::
      join (List.map
              (fun kv => quote (fst kv) ++ 58%N :: stringify (snd kv) : jsstring)
              fields)
      ++ [125%N]
  end.

(** *** Reading *)

Definition parser (A : Type) := list N -> option (A * list N).

Definition is_ws (c : N) : bool :=
  ((c =? 32) || (c =? 9) || (c =? 10) || (c =? 13))%N.

Fixpoint skip_ws (s : list N) : list N :=
  match s with
  | c :: r => if is_ws c then skip_ws r else s
  | [] => []
  end.

Definition hex_value (c : N) : option N :=
  (if (48 <=? c) && (c <=? 57) then Some (c - 48)
   else if (97 <=? c) && (c <=? 102) then Some (c - 87)
   else if (65 <=? c) && (c <=? 70) then Some (c - 55)
   else None)%N.

(** The unit a one-letter escape stands for. *)
Definition unescape (e : N) : option N :=
  (if e =? 34 then Some 34
   else if e =? 92 then Some 92
   else if e =? 47 then Some 47
   else if e =? 98 then Some 8
   else if e =? 102 then Some 12
   else if e =? 110 then Some 10
   else if e =? 114 then Some 13
   else if e =? 116 then Some 9
   else None)%N.

(** The rest of a string literal, after its opening quote. *)
Fixpoint string_chars (s : list N) : option (jsstring * list N) :=
  match s with
  | [] => None
  | c :: r =>
      if (c =? 34)%N then Some ([], r)
      else if (c =? 92)%N then
        match r with
        | [] => None
        | e :: r1 =>
            if (e =? 117)%N then
              match r1 with
              | h1 :: h2 :: h3 :: h4 :: r2 =>
                  match hex_value h1, hex_value h2, hex_value h3, hex_value h4
                  with
                  | Some a, Some b, Some c', Some d =>
                      match string_chars r2 with
                      | Some (t, rest) =>
                          Some ((((a * 16 + b) * 16 + c') * 16 + d)%N :: t, rest)
                      | None => None
                      end
                  | _, _, _, _ => None
                  end
              | _ => None
              end
            else
              match unescape e with
              | Some u =>
                  match string_chars r1 with
                  | Some (t, rest) => Some (u :: t, rest)
                  | None => None
                  end
              | None => None
              end
        end
      else if (c <? 32)%N then None
      else
        match string_chars r with
        | Some (t, rest) => Some (c :: t, rest)
        | None => None
        end
  end.

Definition is_digit (c : N) : bool := ((48 <=? c) && (c <=? 57))%N.

(** The longest prefix of digits, and what follows it. *)
Fixpoint digits (s : list N) : list N * list N :=
  match s with
  | c :: r =>
      if is_digit c then let '(d, rest) := digits r in (c :: d, rest)
      else ([], s)
  | [] => ([], [])
  end.

Definition digit_of_unit (c : N) : Decimal.uint -> Decimal.uint :=
  match c with
  | 48%N => Decimal.D0 | 49%N => Decimal.D1 | 50%N => Decimal.D2
  | 51%N => Decimal.D3 | 52%N => Decimal.D4 | 53%N => Decimal.D5
  | 54%N => Decimal.D6 | 55%N => Decimal.D7 | 56%N => Decimal.D8
  | _ => Decimal.D9
  end.

Fixpoint units_uint (cs : list N) : Decimal.uint :=
  match cs with
  | [] => Decimal.Nil
  | c :: r => digit_of_unit c (units_uint r)
  end.

Definition nat_of_units (cs : list N) : N := N.of_uint (units_uint cs).

(** The value [m * 10^e], in normal form.  It is the exact value of the
    literal: [JSON.parse] rounds it to the nearest binary64 and reads a
    literal beyond the range of binary64, such as [1e999], as an infinity.
    The value of a parsed number is used below only for texts that
    [stringify] has written, which are read back exactly by both. *)
Definition scale10 (m : Z) (e : Z) : number :=
  if 0 <=? e then Fin (m * 10 ^ e) 0 else normalize m (Z.to_nat (- e)).

(** [starts c s]: what follows the unit [c] at the head of [s]. *)
Definition starts (c : N) (s : list N) : option (list N) :=
  match s with
  | d :: r => if (d =? c)%N then Some r else None
  | [] => None
  end.

(** An optional fraction: a point and at least one digit. *)
Definition parse_frac : parser (list N) := fun s =>
  match starts 46 s with
  | Some r =>
      let '(fp, s') := digits r in
      match fp with [] => None | _ :: _ => Some (fp, s') end
  | None => Some ([], s)
  end.

(** An optional exponent: [e] or [E], an optional sign and at least one
    digit. *)
Definition parse_exp : parser Z := fun s =>
  match s with
  | c :: r =>
      if (c =? 101)%N || (c =? 69)%N then
        let '(eneg, r1) :=
          match starts 45 r with
          | Some r' => (true, r')
          | None =>
              match starts 43 r with
              | Some r' => (false, r')
              | None => (false, r)
              end
          end in
        let '(ep, s') := digits r1 in
        match ep with
        | [] => None
        | _ :: _ =>
            let e := Z.of_N (nat_of_units ep) in
            Some (if eneg then - e else e, s')
        end
      else Some (0, s)
  | [] => Some (0, s)
  end.

(** A number: [-? int frac? exp?], with [int] either [0] or without a
    leading zero. *)
Definition parse_number : parser number := fun s =>
  let '(neg, s1) :=
    match starts 45 s with Some r => (true, r) | None => (false, s) end in
  let '(ip, s2) := digits s1 in
  match ip with
  | [] => None
  | d :: ds =>
      if (d =? 48)%N && match ds with [] => false | _ :: _ => true end
      then None
      else
        match parse_frac s2 with
        | None => None
        | Some (fp, s3) =>
            match parse_exp s3 with
            | None => None
            | Some (e, s4) =>
                let mant := Z.of_N (nat_of_units (ip ++ fp)) in
                let m := if neg then - mant else mant in
                Some (scale10 m (e - Z.of_nat (length fp)), s4)
            end
        end
  end.

(** What may follow a number: anything that does not continue it. *)
Definition number_end (rest : list N) : bool :=
  match rest with
  | [] => true
  | c :: _ => negb (is_digit c || (c =? 46)%N || (c =? 101)%N || (c =? 69)%N)
  end.

(** The property [k] of an object under construction is set to [v]: a key
    read twice keeps its first place and its last value. *)
Fixpoint set_field (k : jsstring) (v : value)
    (fields : list (jsstring * value)) : list (jsstring * value) :=
  match fields with
  | [] => [(k, v)]
  | (k', v') :: r =>
      if str_eqb k' k then (k', v) :: r else (k', v') :: set_field k v r
  end.

Definition make_object (members : list (jsstring * value)) : value :=
  JObj (fold_left (fun fields kv => set_field (fst kv) (snd kv) fields)
          members []).

Section Items.
Context (pv : parser value).

(** One member [string : value] of an object. *)
Definition parse_member : parser (jsstring * value) := fun s =>
  match starts 34 (skip_ws s) with
  | Some r =>
      match string_chars r with
      | Some (k, r1) =>
          match starts 58 (skip_ws r1) with
          | Some r2 =>
              match pv r2 with
              | Some (v, r3) => Some ((k, v), r3)
              | None => None
              end
          | None => None
          end
      | None => None
      end
  | None => None
  end.

(** What follows the first element of an array, up to its bracket. *)
Fixpoint parse_elements (n : nat) (s : list N)
  : option (list value * list N) :=
  match n with
  | O => None
  | S n' =>
      match starts 93 (skip_ws s) with
      | Some r => Some ([], r)
      | None =>
          match starts 44 (skip_ws s) with
          | Some r =>
              match pv r with
              | Some (v, r1) =>
                  match parse_elements n' r1 with
                  | Some (vs, r2) => Some (v :: vs, r2)
                  | None => None
                  end
              | None => None
              end
          | None => None
          end
      end
  end.

(** What follows the first member of an object, up to its brace. *)
Fixpoint parse_members (n : nat) (s : list N)
  : option (list (jsstring * value) * list N) :=
  match n with
  | O => None
  | S n' =>
      match starts 125 (skip_ws s) with
      | Some r => Some ([], r)
      | None =>
          match starts 44 (skip_ws s) with
          | Some r =>
              match parse_member r with
              | Some (kv, r1) =>
                  match parse_members n' r1 with
                  | Some (kvs, r2) => Some (kv :: kvs, r2)
                  | None => None
                  end
              | None => None
              end
          | None => None
          end
      end
  end.
End Items.

(** One of the three literal names. *)
Definition parse_literal : parser value := fun s =>
  match s with
  | 116%N :: 114%N :: 117%N :: 101%N :: rest => Some (JBool true, rest)
  | 102%N :: 97%N :: 108%N :: 115%N :: 101%N :: rest => Some (JBool false, rest)
  | 110%N :: 117%N :: 108%N :: 108%N :: rest => Some (JNull, rest)
  | _ => None
  end.

(** A value, with [fuel] bounding the nesting and the number of items. *)
Fixpoint parse_value (fuel : nat) (s : list N) : option (value * list N) :=
  match fuel with
  | O => None
  | S f =>
      match skip_ws s with
      | [] => None
      | c :: r =>
          if (c =? 91)%N then
            match starts 93 (skip_ws r) with
            | Some r' => Some (JArr [], r')
            | None =>
                match parse_value f r with
                | Some (v, r1) =>
                    match parse_elements (parse_value f) f r1 with
                    | Some (vs, r2) => Some (JArr (v :: vs), r2)
                    | None => None
                    end
                | None => None
                end
            end
          else if (c =? 123)%N then
            match starts 125 (skip_ws r) with
            | Some r' => Some (JObj [], r')
            | None =>
                match parse_member (parse_value f) r with
                | Some (kv, r1) =>
                    match parse_members (parse_value f) f r1 with
                    | Some (kvs, r2) => Some (make_object (kv :: kvs), r2)
                    | None => None
                    end
                | None => None
                end
            end
          else if (c =? 34)%N then
            match string_chars r with
            | Some (t, rest) => Some (JStr t, rest)
            | None => None
            end
          else if (c =? 45)%N || is_digit c then
            match parse_number (c :: r) with
            | Some (n, rest) => Some (JNum n, rest)
            | None => None
            end
          else parse_literal (c :: r)
      end
  end.

(** [JSON.parse(text)]; [None] when it throws a [SyntaxError].  The text
    is one value, white space around it allowed.  The fuel is the length
    of the text and one more: no value nests deeper nor has more items than
    the text has code units. *)
Definition parse (text : jsstring) : option value :=
  match parse_value (S (length text)) text with
  | Some (v, rest) =>
      match skip_ws rest with
      | [] => Some v
      | _ => None
      end
  | None => None
  end.

(** The values a JSON text gives back as they are: every number finite
    and in normal form, every object with distinct keys. *)
Fixpoint distinct (keys : list jsstring) : bool :=
  match keys with
  | [] => true
  | k :: r => negb (existsb (str_eqb k) r) && distinct r
  end.

Fixpoint representable (v : value) : bool :=
  match v with
  | JNum n => finite n
  | JArr l => forallb representable l
  | JObj fields =>
      forallb (fun kv => representable (snd kv)) fields
      && distinct (List.map fst fields)
  | _ => true
  end.

(** A bound on the fuel [parse_value] needs to read [v] back. *)
Fixpoint weight (v : value) : nat :=
  match v with
  | JArr l => S (length l + list_sum (List.map weight l))
  | JObj fields =>
      S (length fields + list_sum (List.map (fun kv => weight (snd kv)) fields))
  | _ => 1
  end.

(** [v] is read back from its text, whatever fuel above its weight is
    given and whatever follows the text and does not continue a number. *)
Definition reads_back (v : value) : Prop :=
  forall f rest, (weight v <= f)%nat -> number_end rest = true ->
    parse_value f (stringify v ++ rest) = Some (v, rest).

(** The text after the first item of an array or object: the other items,
    a comma before each, and the closing unit. *)
Definition items_tail (items : list jsstring) (close : N) (rest : list N)
  : list N :=
  flat_map (fun y => 44%N :: y) items ++ close :: rest.

(** The text of one member of an object. *)
Definition member_text (kv : jsstring * value) : jsstring :=
  quote (fst kv) ++ 58%N :: stringify (snd kv).

(** Property access [v.k] on a parsed value other than [null]: [None] is
    [undefined]. *)
Definition get (k : jsstring) (v : value) : option value :=
  match v with
  | JObj fields => snd <$> List.find (fun kv => str_eqb (fst kv) k) fields
  | _ => None
  end.

(** What a value becomes when it is written and read back: a number
    that is not finite becomes [null]. *)
Fixpoint clean (v : value) : value :=
  match v with
  | JNum n => if is_finite n then v else JNull
  | JArr l => JArr (List.map clean l)
  | JObj fields => JObj (List.map (fun kv => (fst kv, clean (snd kv))) fields)
  | _ => v
  end.

(** Every number in normal form, every object with distinct keys. *)
Fixpoint wellformed (v : value) : bool :=
  match v with
  | JNum n => canonical n
  | JArr l => forallb wellformed l
  | JObj fields =>
      forallb (fun kv => wellformed (snd kv)) fields
      && distinct (List.map fst fields)
  | _ => true
  end.

End JSON.

(** ** [Paint/func.ts] and the types of [Paint/index.tsx] *)

Inductive CanvasDrawMode := SELECT | RECT | ELLIPSE | TEXT_S | TEXT_L.
Inductive PenColor := ORANGE | GREEN | PURPLE.

Record Position := { pos_x : number; pos_y : number }.
Record Size := { size_width : number; size_height : number }.

Module PaintRect.
Record t := {
  x : number; y : number; width : number; height : number;
  key : jsstring; strokeColor : jsstring; fillColor : jsstring;
  readonly : bool }.
End PaintRect.

Module PaintEllipse.
Record t := {
  x : number; y : number; radiusX : number; radiusY : number;
  key : jsstring; strokeColor : jsstring; fillColor : jsstring;
  readonly : bool }.
End PaintEllipse.

Module PaintText.
Record t := {
  x : number; y : number; width : number;
  key : jsstring; color : jsstring; fontSize : number; text : jsstring;
  readonly : bool }.
End PaintText.

(** [PaintShape = PaintRect | PaintEllipse | PaintText]; the [type] field
    of the source is the constructor. *)
Inductive PaintShape :=
| Rect (r : PaintRect.t)
| Ellipse (e : PaintEllipse.t)
| Text (t : PaintText.t).

Definition shape_type (s : PaintShape) : jsstring :=
  match s with
  | Rect _ => js "RECT"
  | Ellipse _ => js "ELLIPSE"
  | Text _ => js "TEXT"
  end.

Definition shape_x (s : PaintShape) : number :=
  match s with
  | Rect r => PaintRect.x r
  | Ellipse e => PaintEllipse.x e
  | Text t => PaintText.x t
  end.

Definition shape_y (s : PaintShape) : number :=
  match s with
  | Rect r => PaintRect.y r
  | Ellipse e => PaintEllipse.y e
  | Text t => PaintText.y t
  end.

Definition shape_key (s : PaintShape) : jsstring :=
  match s with
  | Rect r => PaintRect.key r
  | Ellipse e => PaintEllipse.key e
  | Text t => PaintText.key t
  end.

Definition shape_readonly (s : PaintShape) : bool :=
  match s with
  | Rect r => PaintRect.readonly r
  | Ellipse e => PaintEllipse.readonly e
  | Text t => PaintText.readonly t
  end.

(** Assignments to one field of a shape object. *)
Definition set_x (v : number) (s : PaintShape) : PaintShape :=
  match s with
  | Rect r =>
      Rect {| PaintRect.x := v; PaintRect.y := PaintRect.y r;
              PaintRect.width := PaintRect.width r;
              PaintRect.height := PaintRect.height r;
              PaintRect.key := PaintRect.key r;
              PaintRect.strokeColor := PaintRect.strokeColor r;
              PaintRect.fillColor := PaintRect.fillColor r;
              PaintRect.readonly := PaintRect.readonly r |}
  | Ellipse e =>
      Ellipse {| PaintEllipse.x := v; PaintEllipse.y := PaintEllipse.y e;
                 PaintEllipse.radiusX := PaintEllipse.radiusX e;
                 PaintEllipse.radiusY := PaintEllipse.radiusY e;
                 PaintEllipse.key := PaintEllipse.key e;
                 PaintEllipse.strokeColor := PaintEllipse.strokeColor e;
                 PaintEllipse.fillColor := PaintEllipse.fillColor e;
                 PaintEllipse.readonly := PaintEllipse.readonly e |}
  | Text t =>
      Text {| PaintText.x := v; PaintText.y := PaintText.y t;
              PaintText.width := PaintText.width t;
              PaintText.key := PaintText.key t;
              PaintText.color := PaintText.color t;
              PaintText.fontSize := PaintText.fontSize t;
              PaintText.text := PaintText.text t;
              PaintText.readonly := PaintText.readonly t |}
  end.

Definition set_y (v : number) (s : PaintShape) : PaintShape :=
  match s with
  | Rect r =>
      Rect {| PaintRect.x := PaintRect.x r; PaintRect.y := v;
              PaintRect.width := PaintRect.width r;
              PaintRect.height := PaintRect.height r;
              PaintRect.key := PaintRect.key r;
              PaintRect.strokeColor := PaintRect.strokeColor r;
              PaintRect.fillColor := PaintRect.fillColor r;
              PaintRect.readonly := PaintRect.readonly r |}
  | Ellipse e =>
      Ellipse {| PaintEllipse.x := PaintEllipse.x e; PaintEllipse.y := v;
                 PaintEllipse.radiusX := PaintEllipse.radiusX e;
                 PaintEllipse.radiusY := PaintEllipse.radiusY e;
                 PaintEllipse.key := PaintEllipse.key e;
                 PaintEllipse.strokeColor := PaintEllipse.strokeColor e;
                 PaintEllipse.fillColor := PaintEllipse.fillColor e;
                 PaintEllipse.readonly := PaintEllipse.readonly e |}
  | Text t =>
      Text {| PaintText.x := PaintText.x t; PaintText.y := v;
              PaintText.width := PaintText.width t;
              PaintText.key := PaintText.key t;
              PaintText.color := PaintText.color t;
              PaintText.fontSize := PaintText.fontSize t;
              PaintText.text := PaintText.text t;
              PaintText.readonly := PaintText.readonly t |}
  end.

Definition rect_set_size (w h : number) (r : PaintRect.t) : PaintRect.t :=
  {| PaintRect.x := PaintRect.x r; PaintRect.y := PaintRect.y r;
     PaintRect.width := w; PaintRect.height := h;
     PaintRect.key := PaintRect.key r;
     PaintRect.strokeColor := PaintRect.strokeColor r;
     PaintRect.fillColor := PaintRect.fillColor r;
     PaintRect.readonly := PaintRect.readonly r |}.

Definition ellipse_set_radii (rx ry : number) (e : PaintEllipse.t)
  : PaintEllipse.t :=
  {| PaintEllipse.x := PaintEllipse.x e; PaintEllipse.y := PaintEllipse.y e;
     PaintEllipse.radiusX := rx; PaintEllipse.radiusY := ry;
     PaintEllipse.key := PaintEllipse.key e;
     PaintEllipse.strokeColor := PaintEllipse.strokeColor e;
     PaintEllipse.fillColor := PaintEllipse.fillColor e;
     PaintEllipse.readonly := PaintEllipse.readonly e |}.

Definition text_set_width (w : number) (t : PaintText.t) : PaintText.t :=
  {| PaintText.x := PaintText.x t; PaintText.y := PaintText.y t;
     PaintText.width := w;
     PaintText.key := PaintText.key t;
     PaintText.color := PaintText.color t;
     PaintText.fontSize := PaintText.fontSize t;
     PaintText.text := PaintText.text t;
     PaintText.readonly := PaintText.readonly t |}.

Definition text_set_text (s : jsstring) (t : PaintText.t) : PaintText.t :=
  {| PaintText.x := PaintText.x t; PaintText.y := PaintText.y t;
     PaintText.width := PaintText.width t;
     PaintText.key := PaintText.key t;
     PaintText.color := PaintText.color t;
     PaintText.fontSize := PaintText.fontSize t;
     PaintText.text := s;
     PaintText.readonly := PaintText.readonly t |}.

(** [func.ts] *)
Definition getRGBFromPenColor (penColor : PenColor) (opacity : number)
  : jsstring :=
  match penColor with
  | ORANGE => js "rgba(249,115,22," ++ Number_toString opacity ++ js ")"
  | GREEN => js "rgba(34,197,94," ++ Number_toString opacity ++ js ")"
  | PURPLE => js "rgba(168,85,247," ++ Number_toString opacity ++ js ")"
  end.

Definition isPaintRect (shape : PaintShape) : bool :=
  str_eqb (shape_type shape) (js "RECT").

Definition isPaintEllipse (shape : PaintShape) : bool :=
  str_eqb (shape_type shape) (js "ELLIPSE").

Definition isPaintText (shape : PaintShape) : bool :=
  str_eqb (shape_type shape) (js "TEXT").

(** ** The [Paint] component of [Paint/index.tsx] *)
Module Paint.

(** The properties the host passes down. *)
Record Props := {
  drawMode : CanvasDrawMode;
  penColor : PenColor;
  shapes : list PaintShape;
  readonly : bool }.

(** The two [useState] cells of the component. *)
Record State := {
  selectedShape : option (nat * jsstring);   (* index, key *)
  drawTarget : option PaintShape }.

(** A call of one of the callbacks the host has passed in. *)
Inductive Callback :=
| onDrawEnd (newItem : option PaintShape)
| onShapeMoveEnd (index : nat) (pos : Position)
| onShapeResizeEnd (index : nat) (size : Size)
| onTextInput (index : nat) (char : jsstring).

Definition setSelectedShape (v : option (nat * jsstring)) (st : State) :=
  {| selectedShape := v; drawTarget := drawTarget st |}.

Definition setDrawTarget (v : option PaintShape) (st : State) :=
  {| selectedShape := selectedShape st; drawTarget := v |}.

(** [handleCanvasMouseDown].  [pos] is the pointer position of the stage,
    absent while the stage has none; [clickedOnEmpty] tells whether the
    event target is the stage or the background image; [uuid] is the
    result of [uuidv4()]. *)
Definition handleCanvasMouseDown (p : Props) (pos : option Position)
    (clickedOnEmpty : bool) (uuid : jsstring) (st : State) : State :=
  match pos with
  | None => st
  | Some pos =>
      let st := if clickedOnEmpty then setSelectedShape None st else st in
      match drawMode p with
      | RECT =>
          let newRect :=
            {| PaintRect.x := pos_x pos;
               PaintRect.y := pos_y pos;
               PaintRect.width := int 0;
               PaintRect.height := int 0;
               PaintRect.key := uuid;
               PaintRect.strokeColor := getRGBFromPenColor (penColor p) (int 1);
               PaintRect.fillColor := getRGBFromPenColor (penColor p) (Fin 3 1);
               PaintRect.readonly := readonly p |} in
          setDrawTarget (Some (Rect newRect)) st
      | ELLIPSE =>
          let newEllipse :=
            {| PaintEllipse.x := pos_x pos;
               PaintEllipse.y := pos_y pos;
               PaintEllipse.radiusX := int 0;
               PaintEllipse.radiusY := int 0;
               PaintEllipse.key := uuid;
               PaintEllipse.strokeColor :=
                 getRGBFromPenColor (penColor p) (int 1);
               PaintEllipse.fillColor :=
                 getRGBFromPenColor (penColor p) (Fin 3 1);
               PaintEllipse.readonly := readonly p |} in
          setDrawTarget (Some (Ellipse newEllipse)) st
      | TEXT_S | TEXT_L =>
          let fontSize :=
            match drawMode p with TEXT_S => int 16 | _ => int 32 end in
          let newText :=
            {| PaintText.x := pos_x pos;
               PaintText.y := pos_y pos;
               PaintText.width := int 0;
               PaintText.text := js "TEXT";
               PaintText.key := uuid;
               PaintText.fontSize := fontSize;
               PaintText.color := getRGBFromPenColor (penColor p) (int 1);
               PaintText.readonly := readonly p |} in
          setDrawTarget (Some (Text newText)) st
      | SELECT => st
      end
  end.

(** The updater [handleCanvasMouseMove] passes to [setDrawTarget]. *)
Definition resizeDrawTarget (pos : Position) (target : option PaintShape)
  : option PaintShape :=
  match target with
  | None => target
  | Some (Rect r) =>
      Some (Rect (rect_set_size (num_sub (pos_x pos) (PaintRect.x r))
                                (num_sub (pos_y pos) (PaintRect.y r)) r))
  | Some (Ellipse e) =>
      Some (Ellipse (ellipse_set_radii
                       (Math_abs (num_sub (pos_x pos) (PaintEllipse.x e)))
                       (Math_abs (num_sub (pos_y pos) (PaintEllipse.y e))) e))
  | Some (Text t) =>
      Some (Text (text_set_width (num_sub (pos_x pos) (PaintText.x t)) t))
  end.

Definition handleCanvasMouseMove (pos : option Position) (st : State)
  : State :=
  match pos with
  | None => st
  | Some pos => setDrawTarget (resizeDrawTarget pos (drawTarget st)) st
  end.

(** [handleCanvasMouseUp]: the draft is cleared and handed to [onDrawEnd],
    whether there is one or not. *)
Definition handleCanvasMouseUp (st : State) : State * Callback :=
  (setDrawTarget None st, onDrawEnd (drawTarget st)).

Definition handleSelect (index : nat) (key : jsstring) (st : State) : State :=
  setSelectedShape (Some (index, key)) st.

(** The [keydown] listener, installed while a shape is selected. *)
Definition handleKey (key : jsstring) (st : State) : State * option Callback :=
  match selectedShape st with
  | None => (st, None)
  | Some (index, _) =>
      if str_eqb key (js "Enter") then (setSelectedShape None st, None)
      else (st, Some (onTextInput index key))
  end.

(** [ShapeList]: the [onSelect] property it gives the node of [shape];
    [None] is [undefined], [Some (index, key)] the closure
    [handleSelect(index, key)]. *)
Definition ShapeList_onSelect (shape : PaintShape) (shapeIdx : nat)
  : option (nat * jsstring) :=
  if shape_readonly shape then None else Some (shapeIdx, shape_key shape).

(** [ShapeList]: the [selected] property it gives the node of [shape]. *)
Definition selected (st : State) (shape : PaintShape) : bool :=
  match selectedShape st with
  | Some (_, key) => str_eqb key (shape_key shape)
  | None => false
  end.

(** [Shape]: the effect that attaches the transform handles to the node
    runs only for a selected shape (node and transformer being mounted). *)
Definition transformer_attached (st : State) (shape : PaintShape) : bool :=
  selected st shape.

(** A click on the node of the committed shape at [shapeIdx]: its
    [onClick] is the [onSelect] property.  The result is the state after the
    click and whether the selection callback was called. *)
Definition handleShapeClick (p : Props) (shapeIdx : nat) (st : State)
  : State * bool :=
  match shapes p !! shapeIdx with
  | None => (st, false)
  | Some shape =>
      match ShapeList_onSelect shape shapeIdx with
      | None => (st, false)
      | Some (index, key) => (handleSelect index key st, true)
      end
  end.

(** The handlers of the stage over one pointer gesture: pointer down at
    [p0], the pointer moves through [moves], pointer up.  These are all the
    handlers a gesture runs when the pointer goes down on the empty canvas
    ([clickedOnEmpty]: the stage itself or the background image, neither of
    which has a handler of its own).  When it goes down on the node of a
    shape, the scene graph may call the handlers of that node as well
    ([onClick], [onDragEnd], [onTransformEnd]); those are modelled apart,
    by [handleShapeClick] above and by [handleDragEnd] and
    [handleTransformEnd] below. *)
Definition moved (moves : list Position) (st : State) : State :=
  fold_left (fun s q => handleCanvasMouseMove (Some q) s) moves st.

Definition gesture (p : Props) (uuid : jsstring) (clickedOnEmpty : bool)
    (p0 : Position) (moves : list Position) (st : State) : State * Callback :=
  handleCanvasMouseUp
    (moved moves (handleCanvasMouseDown p (Some p0) clickedOnEmpty uuid st)).

(** *** The node of a committed shape ([Shape])

    The scene-graph node of a shape, as far as the two handlers below read
    and write it: position, scale factors and size. *)
Record Node := {
  node_x : number; node_y : number;
  node_scaleX : number; node_scaleY : number;
  node_width : number; node_height : number }.

(** [handleDragEnd] of the node of the shape at [shapeIdx]; [ShapeList]
    adds the index and passes the call on to [onShapeMoveEnd]. *)
Definition handleDragEnd (shapeIdx : nat) (node : Node) : Callback :=
  onShapeMoveEnd shapeIdx {| pos_x := node_x node; pos_y := node_y node |}.


(** The keys pressed while the component is mounted, one after the other;
    the calls of [onTextInput] they make are collected in order. *)
Fixpoint handleKeys (keys : list jsstring) (st : State)
  : State * list Callback :=
  match keys with
  | [] => (st, [])
  | key :: rest =>
      let '(st1, c) := handleKey key st in
      let '(st2, cs) := handleKeys rest st1 in
      (st2, match c with Some c => c :: cs | None => cs end)
  end.

End Paint.

(** ** The host component of [Main/index.tsx] *)
Module Main.

Record HTMLImageElement := { src : jsstring }.

Record State := {
  readonly : bool;
  drawMode : CanvasDrawMode;
  penColor : PenColor;
  shapes : list PaintShape;
  bgImg : option HTMLImageElement;
  bgImgRotation : number;
  (** the value of the text area, when the element is mounted *)
  textAreaEl : option jsstring }.

Definition setDrawMode (v : CanvasDrawMode) (st : State) : State :=
  {| readonly := readonly st; drawMode := v; penColor := penColor st;
     shapes := shapes st; bgImg := bgImg st;
     bgImgRotation := bgImgRotation st; textAreaEl := textAreaEl st |}.

Definition setShapes (v : list PaintShape) (st : State) : State :=
  {| readonly := readonly st; drawMode := drawMode st; penColor := penColor st;
     shapes := v; bgImg := bgImg st;
     bgImgRotation := bgImgRotation st; textAreaEl := textAreaEl st |}.

Definition setBgImgRotation (v : number) (st : State) : State :=
  {| readonly := readonly st; drawMode := drawMode st; penColor := penColor st;
     shapes := shapes st; bgImg := bgImg st;
     bgImgRotation := v; textAreaEl := textAreaEl st |}.

Definition setBgImg (v : HTMLImageElement) (st : State) : State :=
  {| readonly := readonly st; drawMode := drawMode st; penColor := penColor st;
     shapes := shapes st; bgImg := Some v;
     bgImgRotation := bgImgRotation st; textAreaEl := textAreaEl st |}.

Definition setTextArea (v : jsstring) (st : State) : State :=
  {| readonly := readonly st; drawMode := drawMode st; penColor := penColor st;
     shapes := shapes st; bgImg := bgImg st;
     bgImgRotation := bgImgRotation st; textAreaEl := Some v |}.

Definition handleCanvasDrawEnd (newShape : option PaintShape) (st : State)
  : State :=
  let st := setDrawMode SELECT st in
  match newShape with
  | Some newShape => setShapes (shapes st ++ [newShape]) st
  | None => st
  end.

(** The three updaters below are the functions the handlers pass to
    [setShapes].  Each reads [newShapes[index]]; past the end of the array
    that is [undefined], and the access to one of its fields throws a
    [TypeError]: the result is [None]. *)
Definition handleShapeMoveEnd (index : nat) (pos : Position)
    (prevShapes : list PaintShape) : option (list PaintShape) :=
  target ← prevShapes !! index;
  Some (<[index := set_y (pos_y pos) (set_x (pos_x pos) target)]> prevShapes).

Definition handleShapeResizeEnd (index : nat) (size : Size)
    (prevShapes : list PaintShape) : option (list PaintShape) :=
  targetShape ← prevShapes !! index;
  let targetShape' :=
    match targetShape with
    | Rect r => Rect (rect_set_size (size_width size) (size_height size) r)
    | Ellipse e =>
        Ellipse (ellipse_set_radii (Math_floor (num_div2 (size_width size)))
                                   (Math_floor (num_div2 (size_height size))) e)
    | Text t => Text (text_set_width (size_width size) t)
    end in
  Some (<[index := targetShape']> prevShapes).

Definition handleTextInput (index : nat) (char : jsstring)
    (prevShapes : list PaintShape) : option (list PaintShape) :=
  target ← prevShapes !! index;
  let target' :=
    match target with
    | Text t =>
        if str_eqb char (js "Backspace") then
          Text (text_set_text
                  (substring (PaintText.text t) 0
                     (Z.of_nat (length (PaintText.text t)) - 1)) t)
        else
          Text (text_set_text (PaintText.text t ++ char) t)
    | _ => target
    end in
  Some (<[index := target']> prevShapes).

(** The host's reaction to a callback of [Paint]; [None] when the updater
    throws. *)
Definition handle (c : Paint.Callback) (st : State) : option State :=
  match c with
  | Paint.onDrawEnd newShape => Some (handleCanvasDrawEnd newShape st)
  | Paint.onShapeMoveEnd index pos =>
      l ← handleShapeMoveEnd index pos (shapes st); Some (setShapes l st)
  | Paint.onShapeResizeEnd index size =>
      l ← handleShapeResizeEnd index size (shapes st); Some (setShapes l st)
  | Paint.onTextInput index char =>
      l ← handleTextInput index char (shapes st); Some (setShapes l st)
  end.

(** The properties [Main] passes to [Paint]. *)
Definition props (st : State) : Paint.Props :=
  {| Paint.drawMode := drawMode st; Paint.penColor := penColor st;
     Paint.shapes := shapes st; Paint.readonly := readonly st |}.

(** *** The document as a JSON value *)

Import JSON.

(** The object a shape is at run time, its properties in the order the
    literals of [handleCanvasMouseDown] give them. *)
Definition PaintShape_value (s : PaintShape) : value :=
  match s with
  | Rect r =>
      JObj [ (js "type", JStr (js "RECT"));
             (js "x", JNum (PaintRect.x r));
             (js "y", JNum (PaintRect.y r));
             (js "width", JNum (PaintRect.width r));
             (js "height", JNum (PaintRect.height r));
             (js "key", JStr (PaintRect.key r));
             (js "strokeColor", JStr (PaintRect.strokeColor r));
             (js "fillColor", JStr (PaintRect.fillColor r));
             (js "readonly", JBool (PaintRect.readonly r)) ]
  | Ellipse e =>
      JObj [ (js "type", JStr (js "ELLIPSE"));
             (js "x", JNum (PaintEllipse.x e));
             (js "y", JNum (PaintEllipse.y e));
             (js "radiusX", JNum (PaintEllipse.radiusX e));
             (js "radiusY", JNum (PaintEllipse.radiusY e));
             (js "key", JStr (PaintEllipse.key e));
             (js "strokeColor", JStr (PaintEllipse.strokeColor e));
             (js "fillColor", JStr (PaintEllipse.fillColor e));
             (js "readonly", JBool (PaintEllipse.readonly e)) ]
  | Text t =>
      JObj [ (js "type", JStr (js "TEXT"));
             (js "x", JNum (PaintText.x t));
             (js "y", JNum (PaintText.y t));
             (js "width", JNum (PaintText.width t));
             (js "text", JStr (PaintText.text t));
             (js "key", JStr (PaintText.key t));
             (js "fontSize", JNum (PaintText.fontSize t));
             (js "color", JStr (PaintText.color t));
             (js "readonly", JBool (PaintText.readonly t)) ]
  end.

Definition as_number (v : value) : option number :=
  match v with JNum n => Some n | _ => None end.

Definition as_string (v : value) : option jsstring :=
  match v with JStr s => Some s | _ => None end.

Definition as_boolean (v : value) : option bool :=
  match v with JBool b => Some b | _ => None end.

Definition as_array (v : value) : option (list value) :=
  match v with JArr l => Some l | _ => None end.

(** A parsed value seen at the declared type [PaintShape]: an object with
    the tag and exactly the properties of one of the three variants, each
    of its declared type.  [None] for any other value. *)
Definition as_PaintShape (v : value) : option PaintShape :=
  match v with
  | JObj fields =>
      if negb (length fields =? 9)%nat then None
      else
        ty ← get (js "type") v ≫= as_string;
        x ← get (js "x") v ≫= as_number;
        y ← get (js "y") v ≫= as_number;
        key ← get (js "key") v ≫= as_string;
        readonly ← get (js "readonly") v ≫= as_boolean;
        if str_eqb ty (js "RECT") then
          width ← get (js "width") v ≫= as_number;
          height ← get (js "height") v ≫= as_number;
          strokeColor ← get (js "strokeColor") v ≫= as_string;
          fillColor ← get (js "fillColor") v ≫= as_string;
          Some (Rect {| PaintRect.x := x; PaintRect.y := y;
                        PaintRect.width := width;
                        PaintRect.height := height;
                        PaintRect.key := key;
                        PaintRect.strokeColor := strokeColor;
                        PaintRect.fillColor := fillColor;
                        PaintRect.readonly := readonly |})
        else if str_eqb ty (js "ELLIPSE") then
          radiusX ← get (js "radiusX") v ≫= as_number;
          radiusY ← get (js "radiusY") v ≫= as_number;
          strokeColor ← get (js "strokeColor") v ≫= as_string;
          fillColor ← get (js "fillColor") v ≫= as_string;
          Some (Ellipse {| PaintEllipse.x := x; PaintEllipse.y := y;
                           PaintEllipse.radiusX := radiusX;
                           PaintEllipse.radiusY := radiusY;
                           PaintEllipse.key := key;
                           PaintEllipse.strokeColor := strokeColor;
                           PaintEllipse.fillColor := fillColor;
                           PaintEllipse.readonly := readonly |})
        else if str_eqb ty (js "TEXT") then
          width ← get (js "width") v ≫= as_number;
          text ← get (js "text") v ≫= as_string;
          fontSize ← get (js "fontSize") v ≫= as_number;
          color ← get (js "color") v ≫= as_string;
          Some (Text {| PaintText.x := x; PaintText.y := y;
                        PaintText.width := width;
                        PaintText.key := key;
                        PaintText.color := color;
                        PaintText.fontSize := fontSize;
                        PaintText.text := text;
                        PaintText.readonly := readonly |})
        else None
  | _ => None
  end.

(** The object [handleJSONExport] hands to [JSON.stringify]:
    [{ bgImgSrc: bgImg?.src, bgImgRotation, shapes }].  A property whose
    value is [undefined] is not written, so [bgImgSrc] is listed only
    when there is a background image. *)
Definition document_value (st : State) : value :=
  JObj (match bgImg st with
        | Some img => [(js "bgImgSrc", JStr (src img))]
        | None => []
        end
        ++ [ (js "bgImgRotation", JNum (bgImgRotation st));
             (js "shapes", JArr (List.map PaintShape_value (shapes st))) ]).

Definition handleJSONExport (st : State) : State :=
  match textAreaEl st with
  | None => st
  | Some _ => setTextArea (stringify (document_value st)) st
  end.

(** The type [handleJSONImport] declares for the parsed text. *)
Record Document := {
  doc_bgImgSrc : option jsstring;
  doc_bgImgRotation : number;
  doc_shapes : list PaintShape }.

(** A parsed value seen at that type.  Nothing in the source checks it:
    [None] marks the values for which the declaration does not hold. *)
Definition as_Document (data : value) : option Document :=
  bgImgSrc ← match get (js "bgImgSrc") data
              return option (option jsstring) with
              | None => Some None
              | Some (JStr s) => Some (Some s)
              | Some _ => None
              end;
  bgImgRotation ← get (js "bgImgRotation") data ≫= as_number;
  items ← get (js "shapes") data ≫= as_array;
  shapes ← mapM (M := option) as_PaintShape items;
  Some {| doc_bgImgSrc := bgImgSrc; doc_bgImgRotation := bgImgRotation;
          doc_shapes := shapes |}.

(** What a handler does besides updating the state. *)
Inductive Effect :=
| alert (message : jsstring)
| loadImage (source : jsstring).

(** The result of an import.  [Untyped data]: the text was parsed into
    [data] and stored although it is not of the declared type; the state
    then holds values outside the types of the source, which are not
    followed further here. *)
Inductive Outcome :=
| Typed (st : State) (effects : list Effect)
| Untyped (data : value).

(** [handleJSONImport].  The [try] block throws when [JSON.parse] does,
    and when the parsed value is [null] (the access [data.bgImgSrc]); both
    happen before any state is set.  A non-empty [bgImgSrc] starts a load
    of the image; [setBgImg] runs later, on its [load] event. *)
Definition handleJSONImport (st : State) : Outcome :=
  match textAreaEl st with
  | None => Typed st []
  | Some text =>
      match parse text with
      | None | Some JNull => Typed st [alert (js "Falied to import JSON")]
      | Some data =>
          match as_Document data with
          | None => Untyped data
          | Some doc =>
              Typed (setShapes (doc_shapes doc)
                       (setBgImgRotation (doc_bgImgRotation doc) st))
                    match doc_bgImgSrc doc with
                    | Some (c :: s) => [loadImage (c :: s)]
                    | _ => []
                    end
          end
      end
  end.

(** The [load] listener of an image: [setBgImg(image)]. *)
Definition handleImageLoad (source : jsstring) (st : State) : State :=
  setBgImg {| src := source |} st.

(** Whether the [catch] block ran, that is, whether the alert was shown. *)
Definition alerted (o : Outcome) : bool :=
  match o with
  | Typed _ effects =>
      existsb (fun e => match e with alert _ => true | _ => false end) effects
  | Untyped _ => false
  end.

(** The numeric fields of a shape, and of the document, are finite. *)
Definition PaintShape_finite (s : PaintShape) : bool :=
  match s with
  | Rect r =>
      finite (PaintRect.x r) && finite (PaintRect.y r)
      && finite (PaintRect.width r) && finite (PaintRect.height r)
  | Ellipse e =>
      finite (PaintEllipse.x e) && finite (PaintEllipse.y e)
      && finite (PaintEllipse.radiusX e) && finite (PaintEllipse.radiusY e)
  | Text t =>
      finite (PaintText.x t) && finite (PaintText.y t)
      && finite (PaintText.width t) && finite (PaintText.fontSize t)
  end.

Definition document_finite (st : State) : bool :=
  finite (bgImgRotation st) && forallb PaintShape_finite (shapes st).

(** *** The other controls of the host *)

Definition setPenColor (v : PenColor) (st : State) : State :=
  {| readonly := readonly st; drawMode := drawMode st; penColor := v;
     shapes := shapes st; bgImg := bgImg st;
     bgImgRotation := bgImgRotation st; textAreaEl := textAreaEl st |}.

Definition setReadonly (v : bool) (st : State) : State :=
  {| readonly := v; drawMode := drawMode st; penColor := penColor st;
     shapes := shapes st; bgImg := bgImg st;
     bgImgRotation := bgImgRotation st; textAreaEl := textAreaEl st |}.

Definition handleDrawModeChange (drawMode : CanvasDrawMode) (st : State)
  : State :=
  setDrawMode drawMode st.

Definition handlePenColorChange (penColor : PenColor) (st : State) : State :=
  setPenColor penColor st.

Definition handleReadonlyChange (st : State) : State :=
  setReadonly (negb (readonly st)) st.

(** [rotateBackgroundImage]: [(prevRotation + 90) % 360]. *)
Definition rotateBackgroundImage (st : State) : State :=
  setBgImgRotation
    (num_rem (num_add (bgImgRotation st) (int 90)) (int 360)) st.

(** The calls the host makes in reaction to a list of callbacks, in
    order; [None] as soon as one updater throws. *)
Fixpoint handleAll (cs : list Paint.Callback) (st : State) : option State :=
  match cs with
  | [] => Some st
  | c :: rest => st1 ← handle c st; handleAll rest st1
  end.

(** What happens on the host, the import apart: a callback of [Paint], a
    click on one of the controls, the user typing into the text area
    ([editTextArea]), and the [load] event of an image ([imageLoad], which
    [handleFileChange] and the import listen to: [setBgImg(image)]).
    [handleUploadImageClick] and [downloadCanvasAsImage] set no state.

    The import is not an event here: it stores whatever the text denotes,
    also values that are not of the declared types ([Untyped] above), and
    the typed [State] cannot follow the host from there on. *)
Inductive Event :=
| callback (c : Paint.Callback)
| drawModeChange (drawMode : CanvasDrawMode)
| penColorChange (penColor : PenColor)
| readonlyChange
| rotate
| jsonExport
| editTextArea (text : jsstring)
| imageLoad (source : jsstring).

(** One event; [None] when an updater throws. *)
Definition step (e : Event) (st : State) : option State :=
  match e with
  | callback c => handle c st
  | drawModeChange m => Some (handleDrawModeChange m st)
  | penColorChange c => Some (handlePenColorChange c st)
  | readonlyChange => Some (handleReadonlyChange st)
  | rotate => Some (rotateBackgroundImage st)
  | jsonExport => Some (handleJSONExport st)
  | editTextArea text =>
      Some match textAreaEl st with
           | Some _ => setTextArea text st
           | None => st
           end
  | imageLoad source => Some (handleImageLoad source st)
  end.

Fixpoint run (es : list Event) (st : State) : option State :=
  match es with
  | [] => Some st
  | e :: rest => st1 ← step e st; run rest st1
  end.

(** The numbers an event carries are finite. *)
Definition Event_finite (e : Event) : bool :=
  match e with
  | callback (Paint.onDrawEnd (Some s)) => PaintShape_finite s
  | callback (Paint.onShapeMoveEnd _ pos) =>
      finite (pos_x pos) && finite (pos_y pos)
  | callback (Paint.onShapeResizeEnd _ size) =>
      finite (size_width size) && finite (size_height size)
  | _ => true
  end.

(** The numbers of a shape, and of the document, are in normal form. *)
Definition PaintShape_canonical (s : PaintShape) : bool :=
  match s with
  | Rect r =>
      canonical (PaintRect.x r) && canonical (PaintRect.y r)
      && canonical (PaintRect.width r) && canonical (PaintRect.height r)
  | Ellipse e =>
      canonical (PaintEllipse.x e) && canonical (PaintEllipse.y e)
      && canonical (PaintEllipse.radiusX e)
      && canonical (PaintEllipse.radiusY e)
  | Text t =>
      canonical (PaintText.x t) && canonical (PaintText.y t)
      && canonical (PaintText.width t) && canonical (PaintText.fontSize t)
  end.

Definition document_canonical (st : State) : bool :=
  canonical (bgImgRotation st) && forallb PaintShape_canonical (shapes st).

(** The first state of the host. *)
Definition initial (area : option jsstring) : State :=
  {| readonly := false; drawMode := SELECT; penColor := ORANGE;
     shapes := []; bgImg := None; bgImgRotation := int 0;
     textAreaEl := area |}.

End Main.

(** [s'] has every field of [s] but [x] and [y]: the same variant, and
    the same geometry, style, key, read-only flag and text. *)
Definition same_except_position (s s' : PaintShape) : Prop :=
  match s, s' with
  | Rect r, Rect r' =>
      PaintRect.width r' = PaintRect.width r /\
      PaintRect.height r' = PaintRect.height r /\
      PaintRect.key r' = PaintRect.key r /\
      PaintRect.strokeColor r' = PaintRect.strokeColor r /\
      PaintRect.fillColor r' = PaintRect.fillColor r /\
      PaintRect.readonly r' = PaintRect.readonly r
  | Ellipse e, Ellipse e' =>
      PaintEllipse.radiusX e' = PaintEllipse.radiusX e /\
      PaintEllipse.radiusY e' = PaintEllipse.radiusY e /\
      PaintEllipse.key e' = PaintEllipse.key e /\
      PaintEllipse.strokeColor e' = PaintEllipse.strokeColor e /\
      PaintEllipse.fillColor e' = PaintEllipse.fillColor e /\
      PaintEllipse.readonly e' = PaintEllipse.readonly e
  | Text t, Text t' =>
      PaintText.width t' = PaintText.width t /\
      PaintText.key t' = PaintText.key t /\
      PaintText.color t' = PaintText.color t /\
      PaintText.fontSize t' = PaintText.fontSize t /\
      PaintText.text t' = PaintText.text t /\
      PaintText.readonly t' = PaintText.readonly t
  | _, _ => False
  end.

(** The widget over one pointer gesture: the handlers of the stage
    ([Paint.gesture]) and the host's reaction to the [onDrawEnd] call they
    end with.  With [clickedOnEmpty = true] this is the whole gesture. *)
Definition draw (uuid : jsstring) (clickedOnEmpty : bool) (p0 : Position)
    (moves : list Position) (app : Main.State * Paint.State)
  : option (Main.State * Paint.State) :=
  let '(ps, c) :=
    Paint.gesture (Main.props app.1) uuid clickedOnEmpty p0 moves app.2 in
  hs ← Main.handle c app.1;
  Some (hs, ps).

(** ** Sample inputs *)


Definition sample_selection : Paint.State :=
  {| Paint.selectedShape := Some (2%nat, js "0f3e-text");
     Paint.drawTarget := None |}.

Definition sample_rect : PaintRect.t :=
  {| PaintRect.x := int 10; PaintRect.y := int 20;
     PaintRect.width := int 30; PaintRect.height := Fin (-125) 1;
     PaintRect.key := js "b2c1-rect";
     PaintRect.strokeColor := getRGBFromPenColor ORANGE (int 1);
     PaintRect.fillColor := getRGBFromPenColor ORANGE (Fin 3 1);
     PaintRect.readonly := true |}.

Definition sample_ellipse : PaintEllipse.t :=
  {| PaintEllipse.x := int 300; PaintEllipse.y := Fin 1505 1;
     PaintEllipse.radiusX := int 40; PaintEllipse.radiusY := int 25;
     PaintEllipse.key := js "77aa-ellipse";
     PaintEllipse.strokeColor := getRGBFromPenColor GREEN (int 1);
     PaintEllipse.fillColor := getRGBFromPenColor GREEN (Fin 3 1);
     PaintEllipse.readonly := false |}.

Definition sample_text (content : jsstring) : PaintText.t :=
  {| PaintText.x := int 50; PaintText.y := int 60;
     PaintText.width := int 120;
     PaintText.key := js "0f3e-text";
     PaintText.color := getRGBFromPenColor PURPLE (int 1);
     PaintText.fontSize := int 16;
     PaintText.text := content;
     PaintText.readonly := false |}.

Definition sample_shapes : list PaintShape :=
  [Rect sample_rect; Ellipse sample_ellipse; Text (sample_text (js "AB"))].

Definition sample_host (mode : CanvasDrawMode) (rotation : number)
    (area : jsstring) : Main.State :=
  {| Main.readonly := false; Main.drawMode := mode; Main.penColor := ORANGE;
     Main.shapes := sample_shapes;
     Main.bgImg := Some {| Main.src := js "data:image/png;base64,iVBORw0KGgo=" |};
     Main.bgImgRotation := rotation;
     Main.textAreaEl := Some area |}.

Definition point (a b : Z) : Position := {| pos_x := int a; pos_y := int b |}.

Definition sample_paint : Paint.State :=
  {| Paint.selectedShape := None; Paint.drawTarget := None |}.

(** * Properties *)

(** ** Numbers *)
Section Numbers.

Lemma normalize_spec k : forall m, exists m' k',
    normalize m k = Fin m' k' /\ (k' <= k)%nat /\
    m = m' * 10 ^ Z.of_nat (k - k') /\ canonical (Fin m' k') = true.
Proof.
  induction k as [|k IH]; intros m; simpl.
  - exists m, 0%nat. repeat split; [lia | simpl; lia].
  - destruct (Z.eqb_spec (m mod 10) 0) as [Hz|Hnz].
    + destruct (IH (m / 10)) as (m' & k' & -> & Hle & Hm & Hc).
      exists m', k'. repeat split; [lia | | exact Hc].
      replace (S k - k')%nat with (S (k - k')) by lia.
      rewrite Nat2Z.inj_succ, Z.pow_succ_r by lia.
      pose proof (Z.div_mod m 10 ltac:(lia)) as Hdm. lia.
    + exists m, (S k). repeat split; [lia | | ].
      * rewrite Nat.sub_diag. simpl. lia.
      * simpl. destruct (Z.eqb_spec (m mod 10) 0); [contradiction | reflexivity].
Qed.

Lemma normalize_canonical m k :
  canonical (Fin m k) = true -> normalize m k = Fin m k.
Proof.
  destruct k as [|k]; simpl; [reflexivity|].
  destruct (m mod 10 =? 0); [discriminate | reflexivity].
Qed.

Lemma pow10_pos n : 0 < 10 ^ Z.of_nat n.
Proof. apply Z.pow_pos_nonneg; lia. Qed.

(** The sign of a normal form is the sign of the mantissa it came from. *)
Lemma normalize_negative m k :
  num_ltb (normalize m k) (int 0) = (m <? 0).
Proof.
  destruct (normalize_spec k m) as (m' & k' & -> & _ & Hm & _).
  unfold num_ltb, int. simpl Z.of_nat. rewrite Z.pow_0_r, Z.mul_1_r, Z.mul_0_l.
  pose proof (pow10_pos (k - k')) as Hp.
  destruct (Z.ltb_spec m' 0), (Z.ltb_spec m 0); try reflexivity; nia.
Qed.

(** Neither [Math.abs] nor a normal form of a non-negative mantissa is
    below zero. *)
Lemma Math_abs_not_negative a : num_ltb (Math_abs a) (int 0) = false.
Proof.
  destruct a as [m k| |s]; simpl; try reflexivity.
  rewrite Z.pow_0_r. apply Z.ltb_ge. pose proof (pow10_pos k). nia.
Qed.

Lemma Math_abs_nonnegative a :
  is_finite a = true -> num_leb (int 0) (Math_abs a) = true.
Proof.
  destruct a as [m k| |s]; simpl; try discriminate. intros _.
  rewrite Z.pow_0_r. apply Z.leb_le. lia.
Qed.

Lemma num_sub_finite a b :
  is_finite a = true -> is_finite b = true -> is_finite (num_sub a b) = true.
Proof.
  destruct a as [m1 k1| |], b as [m2 k2| |]; simpl; try discriminate.
  intros _ _.
  destruct (normalize_spec (k1 + k2) (m1 * 10 ^ Z.of_nat k2 - m2 * 10 ^ Z.of_nat k1))
    as (m' & k' & -> & _). reflexivity.
Qed.

(** [a - b] is below zero exactly when [a] is below [b]. *)
Lemma num_sub_negative a b :
  is_finite a = true -> is_finite b = true ->
  num_ltb (num_sub a b) (int 0) = num_ltb a b.
Proof.
  destruct a as [m1 k1| |], b as [m2 k2| |]; simpl; try discriminate.
  intros _ _. rewrite normalize_negative.
  destruct (Z.ltb_spec (m1 * 10 ^ Z.of_nat k2 - m2 * 10 ^ Z.of_nat k1) 0),
    (Z.ltb_spec (m1 * 10 ^ Z.of_nat k2) (m2 * 10 ^ Z.of_nat k1));
    try reflexivity; lia.
Qed.

(** [Math.floor(a / 2)] of a finite [a = m / 10^k] is the integer
    [floor (m / (2 * 10^k))]. *)
Lemma floor_half m k :
  Math_floor (num_div2 (Fin m k)) = int (m / (2 * 10 ^ Z.of_nat k)).
Proof.
  unfold num_div2.
  destruct (normalize_spec (S k) (5 * m)) as (m' & k' & -> & Hle & Hm & _).
  unfold Math_floor, int. f_equal.
  pose proof (pow10_pos k') as Hk'. pose proof (pow10_pos (S k - k')) as Hd.
  pose proof (pow10_pos k) as Hk.
  assert (H10 : 10 ^ Z.of_nat (S k) = 10 ^ Z.of_nat (S k - k') * 10 ^ Z.of_nat k').
  { rewrite <- Z.pow_add_r by lia. f_equal. lia. }
  assert (H5 : 5 * m / 10 ^ Z.of_nat (S k) = m' / 10 ^ Z.of_nat k').
  { rewrite Hm, H10. rewrite (Z.mul_comm m'), Z.div_mul_cancel_l by lia.
    reflexivity. }
  rewrite <- H5. rewrite Nat2Z.inj_succ, Z.pow_succ_r by lia.
  replace (10 * 10 ^ Z.of_nat k) with (5 * (2 * 10 ^ Z.of_nat k)) by lia.
  apply Z.div_mul_cancel_l; lia.
Qed.

(** The arithmetic of the handlers yields normal forms. *)
Lemma normalize_is_canonical m k : canonical (normalize m k) = true.
Proof. destruct (normalize_spec k m) as (m' & k' & -> & _ & _ & Hc). exact Hc. Qed.

Lemma num_sub_canonical a b : canonical (num_sub a b) = true.
Proof.
  destruct a as [m1 k1| |s], b as [m2 k2| |t]; simpl; try reflexivity.
  - apply normalize_is_canonical.
  - destruct (Bool.eqb s t); reflexivity.
Qed.

Lemma Math_abs_canonical a : canonical a = true -> canonical (Math_abs a) = true.
Proof.
  destruct a as [m [|k]| |s]; simpl; try reflexivity. intros H.
  destruct (Z.eqb_spec (m mod 10) 0) as [H0|H0]; [discriminate|].
  destruct (Z.eqb_spec (Z.abs m mod 10) 0) as [H1|H1]; [|reflexivity].
  exfalso. apply H0. destruct (Z.abs_spec m) as [[_ E]|[_ E]]; rewrite E in H1.
  - exact H1.
  - replace m with (- - m) by lia. apply Z.mod_opp_l_z; lia.
Qed.

Lemma floor_half_canonical a : canonical (Math_floor (num_div2 a)) = true.
Proof.
  destruct a as [m k| |s]; try reflexivity. rewrite floor_half. reflexivity.
Qed.

Lemma normalize_zero k : normalize 0 k = int 0.
Proof. induction k as [|k IH]; [reflexivity|exact IH]. Qed.

(** [a - a] is zero for a finite [a]. *)
Lemma num_sub_diag a : is_finite a = true -> num_sub a a = int 0.
Proof.
  destruct a as [m k| |s]; try discriminate. intros _. simpl.
  rewrite Z.sub_diag. apply normalize_zero.
Qed.

End Numbers.

(** ** The draw session *)
Section DrawSession.

Import Paint.

Lemma rect_set_size_eta r :
  rect_set_size (PaintRect.width r) (PaintRect.height r) r = r.
Proof. destruct r; reflexivity. Qed.

Lemma ellipse_set_radii_eta e :
  ellipse_set_radii (PaintEllipse.radiusX e) (PaintEllipse.radiusY e) e = e.
Proof. destruct e; reflexivity. Qed.

Lemma moved_snoc moves q st :
  moved (moves ++ [q]) st = handleCanvasMouseMove (Some q) (moved moves st).
Proof. unfold moved. rewrite fold_left_app. reflexivity. Qed.

(** While the pointer moves, a rectangle draft stays the rectangle the
    pointer-down made, up to its width and height. *)
Lemma moved_rect moves : forall st r,
  drawTarget st = Some (Rect r) ->
  exists w h, drawTarget (moved moves st) = Some (Rect (rect_set_size w h r)).
Proof.
  induction moves as [|q moves IH] using rev_ind; intros st r Hst.
  - exists (PaintRect.width r), (PaintRect.height r).
    rewrite rect_set_size_eta. exact Hst.
  - destruct (IH st r Hst) as (w & h & Hm).
    rewrite moved_snoc. simpl. rewrite Hm. simpl. eauto.
Qed.

Lemma moved_ellipse moves : forall st e,
  drawTarget st = Some (Ellipse e) ->
  exists rx ry,
    drawTarget (moved moves st) = Some (Ellipse (ellipse_set_radii rx ry e)).
Proof.
  induction moves as [|q moves IH] using rev_ind; intros st e Hst.
  - exists (PaintEllipse.radiusX e), (PaintEllipse.radiusY e).
    rewrite ellipse_set_radii_eta. exact Hst.
  - destruct (IH st e Hst) as (rx & ry & Hm).
    rewrite moved_snoc. simpl. rewrite Hm. simpl. eauto.
Qed.

(** C3.  A rectangle drawn from the pointer-down position [p0] and
    released after the pointer reached [p1] is committed to the host's
    list with [x = x0], [y = y0], [width = x1 - x0] and
    [height = y1 - y0]; the extents are signed: for finite coordinates
    the width is below zero exactly when [x1 < x0], the height exactly
    when [y1 < y0]. *)
Theorem rect_gesture_extent :
  forall (hs : Main.State) (ps : State) uuid coe p0 moves p1,
    Main.drawMode hs = RECT ->
    exists r hs' ps',
      draw uuid coe p0 (moves ++ [p1]) (hs, ps) = Some (hs', ps') /\
      Main.shapes hs' = Main.shapes hs ++ [Rect r] /\
      PaintRect.x r = pos_x p0 /\
      PaintRect.y r = pos_y p0 /\
      PaintRect.width r = num_sub (pos_x p1) (pos_x p0) /\
      PaintRect.height r = num_sub (pos_y p1) (pos_y p0) /\
      (is_finite (pos_x p0) = true -> is_finite (pos_x p1) = true ->
       num_ltb (PaintRect.width r) (int 0) = num_ltb (pos_x p1) (pos_x p0)) /\
      (is_finite (pos_y p0) = true -> is_finite (pos_y p1) = true ->
       num_ltb (PaintRect.height r) (int 0) = num_ltb (pos_y p1) (pos_y p0)).
Proof.
  intros hs ps uuid coe p0 moves p1 Hmode.
  unfold draw, gesture. cbn [fst snd].
  set (st1 := handleCanvasMouseDown (Main.props hs) (Some p0) coe uuid ps).
  assert (Hdown : exists r0, drawTarget st1 = Some (Rect r0) /\
                    PaintRect.x r0 = pos_x p0 /\ PaintRect.y r0 = pos_y p0).
  { unfold st1, handleCanvasMouseDown. cbn [Main.props drawMode].
    rewrite Hmode. destruct coe; eexists; repeat split. }
  destruct Hdown as (r0 & Hr0 & Hx & Hy).
  destruct (moved_rect moves st1 r0 Hr0) as (w & h & Hm).
  fold st1. rewrite moved_snoc.
  unfold handleCanvasMouseUp, handleCanvasMouseMove.
  cbn [drawTarget setDrawTarget]. rewrite Hm. cbn [resizeDrawTarget].
  cbn [Main.handle mbind option_bind Main.handleCanvasDrawEnd].
  eexists _, _, _. split; [reflexivity|].
  unfold rect_set_size. cbn. rewrite Hx, Hy. do 5 (split; [reflexivity|]).
  split; intros F0 F1; apply num_sub_negative; assumption.
Qed.

(** C4.  An ellipse drawn from [p0] and released after the pointer
    reached [p1] is committed with [radiusX = |x1 - x0|] and
    [radiusY = |y1 - y0|].  Neither radius is below zero, and for finite
    pointer coordinates both are at least zero. *)
Theorem ellipse_gesture_radii :
  forall (hs : Main.State) (ps : State) uuid coe p0 moves p1,
    Main.drawMode hs = ELLIPSE ->
    exists e hs' ps',
      draw uuid coe p0 (moves ++ [p1]) (hs, ps) = Some (hs', ps') /\
      Main.shapes hs' = Main.shapes hs ++ [Ellipse e] /\
      PaintEllipse.radiusX e = Math_abs (num_sub (pos_x p1) (pos_x p0)) /\
      PaintEllipse.radiusY e = Math_abs (num_sub (pos_y p1) (pos_y p0)) /\
      num_ltb (PaintEllipse.radiusX e) (int 0) = false /\
      num_ltb (PaintEllipse.radiusY e) (int 0) = false /\
      (is_finite (pos_x p0) = true -> is_finite (pos_x p1) = true ->
       num_leb (int 0) (PaintEllipse.radiusX e) = true) /\
      (is_finite (pos_y p0) = true -> is_finite (pos_y p1) = true ->
       num_leb (int 0) (PaintEllipse.radiusY e) = true).
Proof.
  intros hs ps uuid coe p0 moves p1 Hmode.
  unfold draw, gesture. cbn [fst snd].
  set (st1 := handleCanvasMouseDown (Main.props hs) (Some p0) coe uuid ps).
  assert (Hdown : exists e0, drawTarget st1 = Some (Ellipse e0) /\
                    PaintEllipse.x e0 = pos_x p0 /\
                    PaintEllipse.y e0 = pos_y p0).
  { unfold st1, handleCanvasMouseDown. cbn [Main.props drawMode].
    rewrite Hmode. destruct coe; eexists; repeat split. }
  destruct Hdown as (e0 & He0 & Hx & Hy).
  destruct (moved_ellipse moves st1 e0 He0) as (rx & ry & Hm).
  fold st1. rewrite moved_snoc.
  unfold handleCanvasMouseUp, handleCanvasMouseMove.
  cbn [drawTarget setDrawTarget]. rewrite Hm. cbn [resizeDrawTarget].
  cbn [Main.handle mbind option_bind Main.handleCanvasDrawEnd].
  eexists _, _, _. split; [reflexivity|].
  unfold ellipse_set_radii. cbn. rewrite Hx, Hy.
  do 3 (split; [reflexivity|]).
  do 2 (split; [apply Math_abs_not_negative|]).
  split; intros F0 F1; apply Math_abs_nonnegative, num_sub_finite; assumption.
Qed.

(** A press and release without any move in between commits the draft
    with zero extents, which is again the difference between the release
    position and the anchor. *)
Lemma rect_click_extent :
  forall (hs : Main.State) (ps : State) uuid coe p0,
    Main.drawMode hs = RECT ->
    is_finite (pos_x p0) = true -> is_finite (pos_y p0) = true ->
    exists r hs' ps',
      draw uuid coe p0 [] (hs, ps) = Some (hs', ps') /\
      Main.shapes hs' = Main.shapes hs ++ [Rect r] /\
      PaintRect.width r = num_sub (pos_x p0) (pos_x p0) /\
      PaintRect.height r = num_sub (pos_y p0) (pos_y p0).
Proof.
  intros hs ps uuid coe p0 Hmode Fx Fy.
  unfold draw, gesture, handleCanvasMouseDown. cbn [fst snd Main.props drawMode].
  rewrite Hmode, !num_sub_diag by assumption.
  destruct coe; eexists _, _, _; repeat split.
Qed.

Lemma ellipse_click_radii :
  forall (hs : Main.State) (ps : State) uuid coe p0,
    Main.drawMode hs = ELLIPSE ->
    is_finite (pos_x p0) = true -> is_finite (pos_y p0) = true ->
    exists e hs' ps',
      draw uuid coe p0 [] (hs, ps) = Some (hs', ps') /\
      Main.shapes hs' = Main.shapes hs ++ [Ellipse e] /\
      PaintEllipse.radiusX e = Math_abs (num_sub (pos_x p0) (pos_x p0)) /\
      PaintEllipse.radiusY e = Math_abs (num_sub (pos_y p0) (pos_y p0)).
Proof.
  intros hs ps uuid coe p0 Hmode Fx Fy.
  unfold draw, gesture, handleCanvasMouseDown. cbn [fst snd Main.props drawMode].
  rewrite Hmode, !num_sub_diag by assumption.
  destruct coe; eexists _, _, _; repeat split.
Qed.

End DrawSession.

(** ** The host's shape list *)
Section ShapeList.

Import Main.

Lemma isPaintRect_spec s : isPaintRect s = true <-> exists r, s = Rect r.
Proof.
  destruct s; split; intros H;
    first [ eexists; reflexivity | reflexivity
          | vm_compute in H; discriminate | destruct H; discriminate ].
Qed.

Lemma isPaintEllipse_spec s :
  isPaintEllipse s = true <-> exists e, s = Ellipse e.
Proof.
  destruct s; split; intros H;
    first [ eexists; reflexivity | reflexivity
          | vm_compute in H; discriminate | destruct H; discriminate ].
Qed.

Lemma isPaintText_spec s : isPaintText s = true <-> exists t, s = Text t.
Proof.
  destruct s; split; intros H;
    first [ eexists; reflexivity | reflexivity
          | vm_compute in H; discriminate | destruct H; discriminate ].
Qed.

(** Two shapes that agree on [x], on [y] and on every other field are
    equal: [same_except_position] leaves no field out. *)
Lemma same_except_position_complete s s' :
  same_except_position s s' -> shape_x s' = shape_x s ->
  shape_y s' = shape_y s -> s' = s.
Proof.
  destruct s as [[]|[]|[]], s' as [[]|[]|[]]; simpl; try contradiction;
    intros (? & ? & ? & ? & ? & ?) ? ?; simplify_eq; reflexivity.
Qed.

Lemma substring_removelast (s : jsstring) :
  substring s 0 (Z.of_nat (length s) - 1) = removelast s.
Proof.
  unfold substring. rewrite removelast_firstn_len.
  set (len := Z.of_nat (length s)).
  set (a := Z.min (Z.max 0 0) len).
  set (b := Z.min (Z.max (len - 1) 0) len).
  assert (Hlo : Z.to_nat (Z.min a b) = 0%nat) by lia.
  assert (Hhi : Z.to_nat (Z.max a b - Z.min a b) = Nat.pred (length s)) by lia.
  rewrite Hlo, Hhi, drop_0. reflexivity.
Qed.




(** C10.  A text input at an index that holds a rectangle or an ellipse
    returns normally and leaves the whole list as it was; [Backspace] on
    a text shape whose text is empty returns normally and leaves the text
    empty. *)
Theorem text_input_other_shapes :
  forall (prevShapes : list PaintShape) index char s,
    prevShapes !! index = Some s ->
    (isPaintRect s = true \/ isPaintEllipse s = true ->
     handleTextInput index char prevShapes = Some prevShapes) /\
    (forall t, s = Text t -> PaintText.text t = [] ->
       exists newShapes t',
         handleTextInput index (js "Backspace") prevShapes = Some newShapes /\
         newShapes !! index = Some (Text t') /\
         PaintText.text t' = [] /\
         newShapes = prevShapes).
Proof.
  intros prevShapes index char s Hs. split.
  - intros Hty. unfold handleTextInput. rewrite Hs.
    cbn [mbind option_bind]. f_equal.
    destruct s as [r|e|t]; try (apply list_insert_id; exact Hs).
    exfalso. destruct Hty as [H|H]; vm_compute in H; discriminate H.
  - intros t -> Ht.
    assert (Hid : handleTextInput index (js "Backspace") prevShapes
                  = Some prevShapes).
    { unfold handleTextInput. rewrite Hs. cbn [mbind option_bind]. f_equal.
      replace (str_eqb (js "Backspace") (js "Backspace")) with true
        by reflexivity.
      rewrite substring_removelast, Ht. simpl removelast.
      apply list_insert_id. rewrite Hs. f_equal. f_equal.
      destruct t; simpl in *; subst; reflexivity. }
    exists prevShapes, t. repeat split; assumption.
Qed.

(** C9.  A pointer-up while there is no draft still calls the draw-end
    callback, with no shape; the host then leaves its shape list as it
    was and sets the draw mode to [SELECT]. *)
Theorem pointer_up_without_draft :
  forall (hs : Main.State) (ps : Paint.State),
    Paint.drawTarget ps = None ->
    exists ps' hs',
      Paint.handleCanvasMouseUp ps = (ps', Paint.onDrawEnd None) /\
      Paint.drawTarget ps' = None /\
      Main.handle (Paint.onDrawEnd None) hs = Some hs' /\
      shapes hs' = shapes hs /\
      drawMode hs' = SELECT.
Proof.
  intros hs ps Hps. unfold Paint.handleCanvasMouseUp. rewrite Hps.
  eexists _, _. repeat split.
Qed.

End ShapeList.

(** ** Selection *)
Section Selection.

Import Paint.

(** C7.  A click on a committed shape whose [readonly] flag is set calls
    no selection callback and leaves the state of the component as it
    was: the selection is unchanged, the shape is selected afterwards
    only if it was before, and likewise for its transform handles. *)
Theorem readonly_click_no_effect :
  forall (p : Props) (st : State) shapeIdx shape,
    shapes p !! shapeIdx = Some shape ->
    shape_readonly shape = true ->
    ShapeList_onSelect shape shapeIdx = None /\
    handleShapeClick p shapeIdx st = (st, false) /\
    (forall st', handleShapeClick p shapeIdx st = (st', false) ->
       selectedShape st' = selectedShape st /\
       selected st' shape = selected st shape /\
       transformer_attached st' shape = transformer_attached st shape) /\
    (selectedShape st = None ->
       forall s, transformer_attached (handleShapeClick p shapeIdx st).1 s = false).
Proof.
  intros p st shapeIdx shape Hs Hro.
  assert (Hsel : ShapeList_onSelect shape shapeIdx = None)
    by (unfold ShapeList_onSelect; rewrite Hro; reflexivity).
  assert (Hclick : handleShapeClick p shapeIdx st = (st, false))
    by (unfold handleShapeClick; rewrite Hs, Hsel; reflexivity).
  split; [exact Hsel|]. split; [exact Hclick|]. split.
  - intros st' H'. rewrite Hclick in H'. inversion H'; subst. repeat split.
  - intros Hnone s. rewrite Hclick. simpl.
    unfold transformer_attached, selected. rewrite Hnone. reflexivity.
Qed.

End Selection.

(** ** Reading back what [JSON.stringify] writes *)
Import JSON.

Section Strings.

Lemma hex_value_digit n : (n < 16)%N -> hex_value (hex_digit n) = Some n.
Proof.
  intros Hn. rewrite <- (N2Nat.id n).
  assert (Hk : (N.to_nat n < 16)%nat) by lia.
  generalize dependent (N.to_nat n). clear. intros k Hk.
  do 16 (destruct k as [|k]; [reflexivity|]). lia.
Qed.

(** Reading back the escape of one unit. *)
Lemma string_chars_escape_unit c tl :
  string_chars (escape_unit c ++ tl) =
  match string_chars tl with
  | Some (t, rest) => Some (c :: t, rest)
  | None => None
  end.
Proof.
  unfold escape_unit.
  destruct (N.eqb_spec c 34) as [->|H34]; [reflexivity|].
  destruct (N.eqb_spec c 92) as [->|H92]; [reflexivity|].
  destruct (N.eqb_spec c 8) as [->|H8]; [reflexivity|].
  destruct (N.eqb_spec c 12) as [->|H12]; [reflexivity|].
  destruct (N.eqb_spec c 10) as [->|H10]; [reflexivity|].
  destruct (N.eqb_spec c 13) as [->|H13]; [reflexivity|].
  destruct (N.eqb_spec c 9) as [->|H9]; [reflexivity|].
  destruct (N.ltb_spec c 32) as [Hlt|Hge].
  - cbn [app string_chars]. 
    replace (92 =? 34)%N with false by reflexivity.
    replace (92 =? 92)%N with true by reflexivity.
    replace (117 =? 117)%N with true by reflexivity.
    replace (hex_value 48) with (Some 0%N) by reflexivity.
    rewrite !hex_value_digit.
    + destruct (string_chars tl) as [[t rest]|]; [|reflexivity].
      do 2 f_equal. f_equal.
      pose proof (N.div_mod c 16 ltac:(lia)). lia.
    + apply N.mod_lt; lia.
    + apply N.Div0.div_lt_upper_bound; lia.
  - cbn [app string_chars].
    destruct (N.eqb_spec c 34); [contradiction|].
    destruct (N.eqb_spec c 92); [contradiction|].
    destruct (N.ltb_spec c 32); [lia|]. reflexivity.
Qed.

Lemma string_chars_quote s rest :
  string_chars (flat_map escape_unit s ++ 34%N :: rest) = Some (s, rest).
Proof.
  induction s as [|c s IH]; [reflexivity|].
  cbn [flat_map]. rewrite <- app_assoc, string_chars_escape_unit, IH.
  reflexivity.
Qed.

End Strings.

Section NumbersIO.

Lemma uint_units_digits u : forallb is_digit (uint_units u) = true.
Proof. induction u; simpl; auto. Qed.

Lemma units_uint_units u : units_uint (uint_units u) = u.
Proof. induction u; simpl; congruence. Qed.

Lemma digits_app ds rest :
  forallb is_digit ds = true ->
  match rest with [] => true | c :: _ => negb (is_digit c) end = true ->
  digits (ds ++ rest) = (ds, rest).
Proof.
  intros Hds Hrest. induction ds as [|d ds IH]; simpl in *.
  - destruct rest as [|c rest]; [reflexivity|]. simpl.
    apply negb_true_iff in Hrest. rewrite Hrest. reflexivity.
  - apply andb_true_iff in Hds as [Hd Hds]. rewrite Hd, (IH Hds). reflexivity.
Qed.

Lemma units_uint_zeros j cs :
  units_uint (repeat 48%N j ++ cs) = Nat.iter j Decimal.D0 (units_uint cs).
Proof. induction j as [|j IH]; simpl; congruence. Qed.

Lemma of_uint_zeros j u : N.of_uint (Nat.iter j Decimal.D0 u) = N.of_uint u.
Proof. induction j as [|j IH]; simpl; [reflexivity|exact IH]. Qed.

(** The digits of a natural number start with a zero only for zero. *)
Lemma to_uint_leading_zero a u :
  N.to_uint a = Decimal.D0 u -> u = Decimal.Nil.
Proof.
  intros Ha.
  pose proof (DecimalN.Unsigned.to_of (N.to_uint a)) as Hn.
  rewrite DecimalN.Unsigned.of_to, Ha in Hn.
  rewrite unorm_D0 in Hn. unfold unorm in Hn.
  destruct (nzhead u) eqn:Hz; try discriminate Hn.
  - injection Hn as Hn. exact Hn.
  - exfalso. exact (nzhead_nonzero _ _ Hz).
Qed.


Lemma starts_eq c r : starts c (c :: r) = Some r.
Proof. unfold starts. rewrite N.eqb_refl. reflexivity. Qed.

Lemma starts_ne c d r : d <> c -> starts c (d :: r) = None.
Proof.
  intros H. unfold starts. destruct (N.eqb_spec d c); [contradiction|reflexivity].
Qed.

Lemma to_uint_units_nonempty a : uint_units (N.to_uint a) <> [].
Proof.
  destruct a as [|p]; [discriminate|]. simpl.
  pose proof (DecimalPos.Unsigned.to_uint_nonnil p) as Hp.
  destruct (Pos.to_uint p); [contradiction|discriminate..].
Qed.

(** The shape of the digits [fin_units] writes: an integer part [ip]
    without a superfluous leading zero, and [k] fraction digits [fp];
    read together they are [|m|]. *)
Lemma fin_units_shape m k :
  canonical (Fin m k) = true ->
  exists d ds fp,
    fin_units m k =
      (d :: ds) ++ match k with O => [] | S _ => 46%N :: fp end /\
    forallb is_digit (d :: ds) = true /\
    forallb is_digit fp = true /\
    length fp = k /\
    (d = 48%N -> ds = []) /\
    nat_of_units ((d :: ds) ++ fp) = Z.abs_N m.
Proof.
  intros Hc. unfold fin_units.
  set (cs := uint_units (N.to_uint (Z.abs_N m))).
  set (cs' := repeat 48%N (S k - length cs) ++ cs).
  set (n := (length cs' - k)%nat).
  assert (Hcs : (1 <= length cs)%nat).
  { pose proof (to_uint_units_nonempty (Z.abs_N m)) as Hne. fold cs in Hne.
    destruct cs; [contradiction|simpl; lia]. }
  assert (Hlen : (k + 1 <= length cs')%nat).
  { unfold cs'. rewrite length_app, repeat_length. lia. }
  assert (Hdig : forallb is_digit cs' = true).
  { unfold cs'. rewrite forallb_app. apply andb_true_iff. split.
    - generalize (S k - length cs)%nat. intros j. induction j; simpl; auto.
    - apply uint_units_digits. }
  assert (Hval : nat_of_units cs' = Z.abs_N m).
  { unfold nat_of_units, cs'. rewrite units_uint_zeros, of_uint_zeros.
    unfold cs. rewrite units_uint_units. apply DecimalN.Unsigned.of_to. }
  assert (Hsplit : take n cs' ++ drop n cs' = cs') by apply take_drop.
  rewrite <- Hsplit, forallb_app in Hdig. apply andb_true_iff in Hdig as [Hip Hfp].
  destruct (take n cs') as [|d ds] eqn:Hip'.
  { exfalso. apply (f_equal length) in Hip'. rewrite length_take in Hip'.
    cbn [length] in Hip'. unfold n in Hip'. lia. }
  exists d, ds, (drop n cs'). split; [reflexivity|].
  split; [exact Hip|]. split; [exact Hfp|].
  split; [rewrite length_drop; unfold n; lia|].
  split; [|rewrite Hsplit; exact Hval].
  intros ->.
  (* the first digit is a zero *)
  destruct (decide (length cs <= k)%nat) as [Hpad|Hnopad].
  - (* padded: exactly one digit stands before the point *)
    assert (Hn : n = 1%nat).
    { unfold n, cs'. rewrite length_app, repeat_length. lia. }
    rewrite Hn in Hip'. apply (f_equal length) in Hip'.
    rewrite length_take in Hip'. cbn [length] in Hip'.
    destruct ds; [reflexivity|cbn [length] in Hip'; lia].
  - (* not padded: the digits of |m| start with a zero, so |m| = 0 *)
    assert (Hcs' : cs' = cs).
    { unfold cs'. replace (S k - length cs)%nat with 0%nat by lia. reflexivity. }
    rewrite Hcs' in Hip'. unfold cs in Hip'.
    destruct (N.to_uint (Z.abs_N m)) as [|u|u|u|u|u|u|u|u|u|u] eqn:Hu;
      try (destruct n; simpl in Hip'; discriminate Hip').
    apply to_uint_leading_zero in Hu. subst u.
    destruct n as [|n']; [discriminate|]. simpl in Hip'.
    destruct n'; simpl in Hip'; congruence.
Qed.

Lemma number_end_not_digit rest :
  number_end rest = true ->
  match rest with [] => true | c :: _ => negb (is_digit c) end = true.
Proof.
  destruct rest as [|c rest]; [reflexivity|]. simpl.
  destruct (is_digit c); [discriminate|reflexivity].
Qed.

Lemma starts_number_end c rest :
  number_end rest = true -> (c = 46 \/ c = 101 \/ c = 69)%N ->
  starts c rest = None.
Proof.
  destruct rest as [|d rest]; [reflexivity|]. simpl. intros H Hc.
  destruct (N.eqb_spec d c) as [Hdc|Hdc]; [subst d|reflexivity]. exfalso.
  destruct Hc as [ -> | [ -> | -> ] ]; simpl in H; discriminate.
Qed.

(** Reading a finite number in normal form back from its digits. *)
Lemma parse_number_fin m k rest :
  canonical (Fin m k) = true -> number_end rest = true ->
  parse_number (Number_toString (Fin m k) ++ rest) = Some (Fin m k, rest).
Proof.
  intros Hc Hrest.
  destruct (fin_units_shape m k Hc) as (d & ds & fp & Hu & Hip & Hfp & Hlen & Hz & Hval).
  unfold Number_toString. rewrite Hu.
  set (tail := match k with O => [] | S _ => 46%N :: fp end ++ rest).
  assert (Hd : is_digit d = true) by (simpl in Hip; apply andb_true_iff in Hip; tauto).
  assert (Hd45 : d <> 45%N) by (intros ->; discriminate).
  assert (Hdigits : digits ((d :: ds) ++ tail) = (d :: ds, tail)).
  { apply digits_app; [exact Hip|]. unfold tail. destruct k; simpl.
    - apply number_end_not_digit, Hrest.
    - reflexivity. }
  assert (Hfrac : parse_frac tail = Some (fp, rest)).
  { unfold parse_frac, tail. destruct k as [|k]; simpl app.
    - rewrite (starts_number_end 46 rest Hrest) by auto.
      destruct fp; [reflexivity|discriminate].
    - rewrite starts_eq, digits_app;
        [|exact Hfp|apply number_end_not_digit, Hrest].
      destruct fp; [discriminate|reflexivity]. }
  assert (Hexp : parse_exp rest = Some (0, rest)).
  { unfold parse_exp. destruct rest as [|c r]; [reflexivity|]. simpl in Hrest.
    destruct (c =? 101)%N, (c =? 69)%N; simpl;
      rewrite ?orb_true_r in Hrest; try discriminate; reflexivity. }
  assert (Hlead : (d =? 48)%N && match ds with [] => false | _ :: _ => true end = false).
  { destruct (N.eqb_spec d 48) as [H48|H48]; [|reflexivity].
    rewrite (Hz H48). reflexivity. }
  assert (Hscale : forall m', m' = m -> scale10 m' (0 - Z.of_nat (length fp)) = Fin m k).
  { intros m' ->. rewrite Hlen. unfold scale10. destruct k as [|k].
    - simpl. f_equal. lia.
    - destruct (Z.leb_spec 0 (0 - Z.of_nat (S k))); [lia|].
      replace (Z.to_nat (- (0 - Z.of_nat (S k)))) with (S k) by lia.
      apply normalize_canonical, Hc. }
  unfold parse_number.
  destruct (Z.ltb_spec m 0) as [Hneg|Hpos].
  - change ([45%N] ++ (d :: ds) ++ match k with O => [] | S _ => 46%N :: fp end)
      with (45%N :: (d :: ds) ++ match k with O => [] | S _ => 46%N :: fp end).
    rewrite <- app_comm_cons, starts_eq, <- app_assoc. fold tail.
    rewrite Hdigits, Hlead, Hfrac, Hexp, Hval. rewrite Hscale; [reflexivity|lia].
  - rewrite app_nil_l, <- app_assoc. fold tail.
    rewrite <- app_comm_cons, (starts_ne 45 d) by exact Hd45.
    rewrite app_comm_cons, Hdigits, Hlead, Hfrac, Hexp, Hval.
    rewrite Hscale; [reflexivity|lia].
Qed.

End NumbersIO.

Section Values.

Lemma value_ind' (P : value -> Prop) :
  P JNull -> (forall b, P (JBool b)) -> (forall n, P (JNum n)) ->
  (forall s, P (JStr s)) ->
  (forall l, Forall P l -> P (JArr l)) ->
  (forall fields, Forall (fun kv => P (snd kv)) fields -> P (JObj fields)) ->
  forall v, P v.
Proof.
  intros HNull HBool HNum HStr HArr HObj.
  refine (fix IH (v : value) : P v :=
    match v with
    | JNull => HNull
    | JBool b => HBool b
    | JNum n => HNum n
    | JStr s => HStr s
    | JArr l =>
        HArr l ((fix go (l : list value) : Forall P l :=
                   match l with
                   | [] => List.Forall_nil P
                   | x :: r => List.Forall_cons P x r (IH x) (go r)
                   end) l)
    | JObj fields =>
        HObj fields
          ((fix go (l : list (jsstring * value))
              : Forall (fun kv => P (snd kv)) l :=
              match l with
              | [] => List.Forall_nil _
              | kv :: r => List.Forall_cons _ kv r (IH (snd kv)) (go r)
              end) fields)
    end).
Qed.

Lemma is_digit_bounds c : is_digit c = true -> (48 <= c <= 57)%N.
Proof.
  unfold is_digit. intros H. apply andb_true_iff in H as [H1 H2].
  apply N.leb_le in H1, H2. lia.
Qed.

(** A number is written with a sign or a digit first. *)
Lemma Number_toString_head m k :
  canonical (Fin m k) = true ->
  exists c tl, Number_toString (Fin m k) = c :: tl /\
               (c =? 45)%N || is_digit c = true.
Proof.
  intros Hc. destruct (fin_units_shape m k Hc) as (d & ds & fp & Hu & Hip & _).
  unfold Number_toString. rewrite Hu. destruct (m <? 0).
  - eexists _, _. split; reflexivity.
  - eexists _, _. split; [reflexivity|]. simpl in Hip.
    apply andb_true_iff in Hip as [-> _]. apply orb_true_r.
Qed.

(** The first unit of a written value is no white space and no closing
    bracket. *)
Lemma stringify_head v :
  representable v = true ->
  exists c tl, stringify v = c :: tl /\ is_ws c = false /\ c <> 93%N.
Proof.
  destruct v as [|[]|n|s|l|fields]; simpl; intros Hv;
    try (eexists _, _; split; [reflexivity|split; [reflexivity|discriminate]]).
  unfold finite in Hv. apply andb_true_iff in Hv as [Hf Hc].
  destruct n as [m k| |]; try discriminate. 
  destruct (Number_toString_head m k Hc) as (c & tl & Hs & Hh).
  simpl is_finite. cbv iota. rewrite Hs. exists c, tl. split; [reflexivity|].
  apply orb_true_iff in Hh as [H45|Hd].
  - apply N.eqb_eq in H45. subst c. split; [reflexivity|discriminate].
  - apply is_digit_bounds in Hd. unfold is_ws. split; [|lia].
    repeat (apply orb_false_iff; split); apply N.eqb_neq; lia.
Qed.

Lemma skip_ws_head c tl : is_ws c = false -> skip_ws (c :: tl) = c :: tl.
Proof. intros H. simpl. rewrite H. reflexivity. Qed.

Lemma items_tail_end items close rest :
  (close = 93 \/ close = 125)%N -> number_end (items_tail items close rest) = true.
Proof.
  intros Hc. unfold items_tail.
  destruct items; simpl; [destruct Hc; subst; reflexivity|reflexivity].
Qed.

Lemma parse_elements_stringify r :
  Forall reads_back r ->
  forall f n rest,
    (list_sum (List.map weight r) <= f)%nat -> (length r < n)%nat ->
    parse_elements (parse_value f) n
      (items_tail (List.map stringify r) 93 rest) = Some (r, rest).
Proof.
  induction 1 as [|x r Hx Hr IH]; intros f n rest Hf Hn.
  - destruct n; [simpl in Hn; lia|]. reflexivity.
  - destruct n; [simpl in Hn; lia|]. simpl in Hf, Hn.
    unfold items_tail. cbn [List.map flat_map].
    rewrite <- app_assoc, <- app_comm_cons.
    cbn [parse_elements]. rewrite skip_ws_head by reflexivity.
    rewrite starts_ne by discriminate. rewrite starts_eq.
    fold (items_tail (List.map stringify r) 93 rest).
    rewrite Hx; [|lia|apply items_tail_end; auto].
    rewrite IH by lia. reflexivity.
Qed.

Lemma parse_member_stringify f k v rest :
  reads_back v -> (weight v <= f)%nat -> number_end rest = true ->
  parse_member (parse_value f) (member_text (k, v) ++ rest) = Some ((k, v), rest).
Proof.
  intros Hv Hf Hrest. unfold parse_member, member_text, quote. cbn [fst snd].
  repeat (rewrite <- app_assoc || rewrite <- app_comm_cons). cbn [app].
  rewrite skip_ws_head, starts_eq by reflexivity.
  rewrite string_chars_quote.
  rewrite skip_ws_head, starts_eq by reflexivity.
  rewrite Hv by assumption. reflexivity.
Qed.

Lemma parse_members_stringify r :
  Forall (fun kv => reads_back (snd kv)) r ->
  forall f n rest,
    (list_sum (List.map (fun kv => weight (snd kv)) r) <= f)%nat ->
    (length r < n)%nat ->
    parse_members (parse_value f) n
      (items_tail (List.map member_text r) 125 rest) = Some (r, rest).
Proof.
  induction 1 as [|[k v] r Hx Hr IH]; intros f n rest Hf Hn.
  - destruct n; [simpl in Hn; lia|]. reflexivity.
  - destruct n; [simpl in Hn; lia|]. simpl in Hf, Hn.
    unfold items_tail. cbn [List.map flat_map].
    rewrite <- app_assoc, <- app_comm_cons.
    cbn [parse_members]. rewrite skip_ws_head by reflexivity.
    rewrite starts_ne by discriminate. rewrite starts_eq.
    fold (items_tail (List.map member_text r) 125 rest).
    rewrite parse_member_stringify; [|exact Hx|lia|apply items_tail_end; auto].
    rewrite IH by lia. reflexivity.
Qed.

End Values.

Section RoundTrip.

Lemma distinct_NoDup (keys : list jsstring) :
  distinct keys = true -> NoDup keys.
Proof.
  induction keys as [|k r IH]; simpl; intros H; [constructor|].
  apply andb_true_iff in H as [Hk Hr]. constructor; [|auto].
  intros Hin. apply negb_true_iff in Hk.
  assert (existsb (str_eqb k) r = true); [|congruence].
  apply existsb_exists. exists k. split; [apply list_elem_of_In, Hin|].
  unfold str_eqb. apply bool_decide_eq_true. reflexivity.
Qed.

Lemma set_field_fresh k v (fields : list (jsstring * value)) :
  k ∉ List.map fst fields -> set_field k v fields = fields ++ [(k, v)].
Proof.
  induction fields as [|[k' v'] r IH]; simpl; intros Hk; [reflexivity|].
  apply not_elem_of_cons in Hk as [Hne Hr].
  unfold str_eqb. rewrite bool_decide_eq_false_2 by congruence.
  rewrite IH by exact Hr. reflexivity.
Qed.

Lemma fold_set_field (l : list (jsstring * value)) : forall acc,
  NoDup (List.map fst (acc ++ l)) ->
  fold_left (fun fields kv => set_field (fst kv) (snd kv) fields) l acc
  = acc ++ l.
Proof.
  induction l as [|[k v] r IH]; intros acc Hnd; simpl.
  - rewrite app_nil_r. reflexivity.
  - rewrite set_field_fresh.
    + rewrite IH; rewrite <- app_assoc; [reflexivity|exact Hnd].
    + rewrite List.map_app in Hnd. apply NoDup_app in Hnd as (_ & Hd & _).
      intros Hin. apply (Hd k Hin). simpl. left.
Qed.

Lemma make_object_distinct (fields : list (jsstring * value)) :
  distinct (List.map fst fields) = true -> make_object fields = JObj fields.
Proof.
  intros H. unfold make_object. f_equal.
  apply (fold_set_field fields []). apply distinct_NoDup, H.
Qed.

Lemma Forall_forallb_weaken {A} (b : A -> bool) (Q : A -> Prop)
    (l : list A) :
  Forall (fun x => b x = true -> Q x) l -> forallb b l = true -> Forall Q l.
Proof.
  induction 1 as [|x r Hx Hr IH]; simpl; intros H; constructor;
    apply andb_true_iff in H as [H1 H2]; auto.
Qed.

(** Every representable value is read back from its text, whatever
    follows the text. *)
Lemma parse_value_stringify v : representable v = true -> reads_back v.
Proof.
  induction v as [|b|n|s|l IH|fields IH] using value_ind'; intros Hv f rest Hf Hrest;
    (destruct f as [|f]; [simpl in Hf; lia|]).
  - reflexivity.
  - destruct b; reflexivity.
  - simpl in Hv. unfold finite in Hv. apply andb_true_iff in Hv as [Hfin Hc].
    destruct n as [m k| |]; try discriminate.
    pose proof (parse_number_fin m k rest Hc Hrest) as Hpn.
    destruct (Number_toString_head m k Hc) as (c & tl & Hs & Hh).
    cbn [stringify is_finite]. rewrite Hs in Hpn |- *.
    rewrite <- app_comm_cons in Hpn |- *.
    assert (H91 : is_ws c = false /\ (c =? 91)%N = false /\
                  (c =? 123)%N = false /\ (c =? 34)%N = false).
    { apply orb_true_iff in Hh as [H45|Hd].
      - apply N.eqb_eq in H45. subst c. repeat split.
      - apply is_digit_bounds in Hd. unfold is_ws.
        repeat split; repeat (apply orb_false_iff; split);
          apply N.eqb_neq; lia. }
    destruct H91 as (Hws & H91 & H123 & H34).
    cbn [parse_value]. rewrite skip_ws_head by exact Hws.
    rewrite H91, H123, H34, Hh, Hpn. reflexivity.
  - cbn [stringify]. unfold quote.
    repeat (rewrite <- app_assoc || rewrite <- app_comm_cons). cbn [app].
    cbn [parse_value]. rewrite skip_ws_head by reflexivity.
    replace (34 =? 91)%N with false by reflexivity.
    replace (34 =? 123)%N with false by reflexivity.
    replace (34 =? 34)%N with true by reflexivity.
    rewrite string_chars_quote. reflexivity.
  - simpl in Hv.
    pose proof (Forall_forallb_weaken _ _ _ IH Hv) as Hrb.
    destruct l as [|x r].
    + reflexivity.
    + cbn [stringify List.map join].
      repeat (rewrite <- app_assoc || rewrite <- app_comm_cons). cbn [app].
      fold (items_tail (List.map stringify r) 93 rest).
      cbn [parse_value]. rewrite skip_ws_head by reflexivity.
      replace (91 =? 91)%N with true by reflexivity.
      apply andb_true_iff in Hv as [Hx Hr].
      destruct (stringify_head x Hx) as (c & tl & Hs & Hws & H93).
      rewrite Hs, <- app_comm_cons, skip_ws_head, starts_ne by assumption.
      rewrite app_comm_cons, <- Hs.
      apply Forall_cons in Hrb as [Hrx Hrr].
      simpl in Hf.
      rewrite Hrx; [|lia|apply items_tail_end; auto].
      rewrite parse_elements_stringify; [reflexivity|exact Hrr|lia|lia].
  - simpl in Hv. apply andb_true_iff in Hv as [Hv Hd].
    pose proof (Forall_forallb_weaken _ _ _ IH Hv) as Hrb.
    destruct fields as [|[k x] r].
    + reflexivity.
    + cbn [stringify List.map join].
      change (fun kv : jsstring * value => quote kv.1 ++ 58%N :: stringify kv.2)
        with member_text.
      change (quote (k, x).1 ++ 58%N :: stringify (k, x).2)
        with (member_text (k, x)).
      repeat (rewrite <- app_assoc || rewrite <- app_comm_cons). cbn [app].
      fold (items_tail (List.map member_text r) 125 rest).
      cbn [parse_value]. rewrite skip_ws_head by reflexivity.
      replace (123 =? 91)%N with false by reflexivity.
      replace (123 =? 123)%N with true by reflexivity.
      assert (Hq : exists tl, member_text (k, x) = 34%N :: tl)
        by (eexists; reflexivity).
      destruct Hq as (tl & Hs).
      rewrite Hs, <- app_comm_cons, skip_ws_head, starts_ne by (reflexivity || discriminate).
      rewrite app_comm_cons, <- Hs.
      apply Forall_cons in Hrb as [Hrx Hrr]. simpl in Hf, Hrx.
      rewrite parse_member_stringify; [|exact Hrx|lia|apply items_tail_end; auto].
      rewrite (parse_members_stringify r Hrr f f rest) by lia.
      rewrite make_object_distinct by exact Hd. reflexivity.
Qed.

Lemma length_join (items : list jsstring) :
  (length items + list_sum (List.map length items) <= S (length (join items)))%nat.
Proof.
  destruct items as [|x r]; simpl; [lia|]. rewrite length_app.
  induction r as [|y r IH]; simpl; [lia|]. rewrite length_app. lia.
Qed.

Lemma list_sum_le {A} (f g : A -> nat) (l : list A) :
  Forall (fun x => f x <= g x)%nat l ->
  (list_sum (List.map f l) <= list_sum (List.map g l))%nat.
Proof. induction 1; simpl; lia. Qed.

Lemma Number_toString_nonempty n : (1 <= length (Number_toString n))%nat.
Proof.
  destruct n as [m k| |[]]; try (simpl; lia).
  unfold Number_toString, fin_units. rewrite !length_app.
  pose proof (to_uint_units_nonempty (Z.abs_N m)) as Hne.
  destruct (uint_units (N.to_uint (Z.abs_N m))) as [|c cs] eqn:Hu;
    [contradiction|].
  rewrite length_take, length_app, repeat_length. simpl length. lia.
Qed.

(** The text of a value is at least as long as the fuel reading it
    takes. *)
Lemma weight_length v : (weight v <= length (stringify v))%nat.
Proof.
  induction v as [|b|n|s|l IH|fields IH] using value_ind'.
  - simpl. lia.
  - destruct b; simpl; lia.
  - simpl. destruct (is_finite n); [apply Number_toString_nonempty|simpl; lia].
  - simpl. rewrite length_app. simpl. lia.
  - cbn [stringify weight]. cbn [length]. rewrite length_app.
    pose proof (length_join (List.map stringify l)) as Hj.
    rewrite length_map, List.map_map in Hj.
    pose proof (list_sum_le weight (fun v => length (stringify v)) l IH).
    simpl. lia.
  - cbn [stringify weight]. cbn [length]. rewrite length_app.
    match goal with |- context [join (List.map ?g fields)] =>
      pose proof (length_join (List.map g fields)) as Hj;
      rewrite length_map, List.map_map in Hj;
      pose proof (list_sum_le (fun kv => weight kv.2)
                    (fun kv => length (g kv)) fields) as Hs
    end.
    cbv beta in Hs, Hj. simpl length at 3. 
    assert (Hle : (list_sum (List.map (fun kv => weight kv.2) fields) <=
                   list_sum (List.map (fun kv : jsstring * value =>
                      length (quote kv.1 ++ 58%N :: stringify kv.2)) fields))%nat).
    { apply Hs. eapply Forall_impl; [exact IH|]. intros [k x] Hx.
      rewrite length_app. cbn [length fst snd] in *. lia. }
    apply le_n_S. rewrite Nat.add_1_r.
    etransitivity; [|exact Hj]. apply Nat.add_le_mono_l. exact Hle.
Qed.

(** [JSON.parse (JSON.stringify v)] is [v] for every representable
    value: the fuel [parse] starts with is enough. *)
Lemma parse_stringify v : representable v = true -> parse (stringify v) = Some v.
Proof.
  intros Hv. unfold parse.
  pose proof (parse_value_stringify v Hv (S (length (stringify v))) []) as H.
  rewrite app_nil_r in H. rewrite H; [reflexivity| |reflexivity].
  pose proof (weight_length v). lia.
Qed.

End RoundTrip.

(** ** Export and import of the document *)
Section Document.

Import Main.

Lemma as_PaintShape_value s : as_PaintShape (PaintShape_value s) = Some s.
Proof. destruct s as [[]|[]|[]]; reflexivity. Qed.

Lemma mapM_as_PaintShape (l : list PaintShape) :
  mapM as_PaintShape (List.map PaintShape_value l) = Some l.
Proof.
  induction l as [|s l IH]; [reflexivity|].
  cbn [List.map mapM]. rewrite as_PaintShape_value, IH. reflexivity.
Qed.

Lemma PaintShape_representable s :
  PaintShape_finite s = true -> representable (PaintShape_value s) = true.
Proof.
  destruct s as [r|e|t]; simpl;
    repeat match goal with
           | |- context [finite ?n] => destruct (finite n)
           end; simpl; intros H; try discriminate H; reflexivity.
Qed.

Lemma document_representable st :
  document_finite st = true -> representable (document_value st) = true.
Proof.
  unfold document_finite. intros H. apply andb_true_iff in H as [Hrot Hsh].
  assert (Hshapes : forallb representable
                      (List.map PaintShape_value (shapes st)) = true).
  { rewrite forallb_forall in Hsh |- *. intros v Hv.
    apply in_map_iff in Hv as (s & <- & Hs).
    apply PaintShape_representable, Hsh, Hs. }
  unfold document_value. destruct (bgImg st); simpl;
    rewrite Hrot, Hshapes; reflexivity.
Qed.

Lemma as_Document_value st :
  as_Document (document_value st) =
  Some {| doc_bgImgSrc := src <$> bgImg st;
          doc_bgImgRotation := bgImgRotation st;
          doc_shapes := shapes st |}.
Proof.
  unfold as_Document, document_value.
  destruct (bgImg st) as [img|]; simpl;
    rewrite mapM_as_PaintShape; reflexivity.
Qed.

(** The text an export has put into the text area. *)
Lemma exported_text st text :
  textAreaEl (handleJSONExport st) = Some text ->
  text = stringify (document_value st).
Proof.
  unfold handleJSONExport. destruct (textAreaEl st) as [old|] eqn:Hold.
  - intros H. apply (inj Some) in H. symmetry. exact H.
  - congruence.
Qed.

(** What the import makes of the text exported from a finite document
    [st1], whatever the state [st2] it is imported in. *)
Lemma import_of_export (st1 st2 : State) text :
  document_finite st1 = true ->
  textAreaEl (handleJSONExport st1) = Some text ->
  textAreaEl st2 = Some text ->
  handleJSONImport st2 =
  Typed (setShapes (shapes st1) (setBgImgRotation (bgImgRotation st1) st2))
        match bgImg st1 with
        | Some {| src := c :: s |} => [loadImage (c :: s)]
        | _ => []
        end.
Proof.
  intros Hfin Hexp Harea.
  pose proof (exported_text _ _ Hexp) as ->.
  unfold handleJSONImport. rewrite Harea.
  rewrite (parse_stringify _ (document_representable st1 Hfin)).
  rewrite as_Document_value.
  assert (Hobj : exists fields, document_value st1 = JObj fields)
    by (eexists; reflexivity).
  destruct Hobj as [fields ->].
  cbn [doc_shapes doc_bgImgRotation doc_bgImgSrc]. f_equal.
  destruct (bgImg st1) as [[[|c s]]|]; reflexivity.
Qed.

(** C1, as amended.  For every document [st1] whose numbers (the
    background rotation and the numeric fields of the shapes) are finite,
    the text it exports carries the document: imported in any state [st2]
    of the host, also one with other shapes and another rotation, that text
    gives the shape list and the background rotation of [st1].  No alert is
    shown.  The background image is not set by the import itself, it stays
    the one of [st2]: the only other effect is the load of an image from
    the exported source, which is started whenever the source is not
    empty. *)
Theorem export_import_round_trip :
  forall (st1 st2 : State) (text : jsstring),
    document_finite st1 = true ->
    textAreaEl (handleJSONExport st1) = Some text ->
    textAreaEl st2 = Some text ->
    exists st' effects,
      handleJSONImport st2 = Typed st' effects /\
      shapes st' = shapes st1 /\
      bgImgRotation st' = bgImgRotation st1 /\
      bgImg st' = bgImg st2 /\
      alerted (Typed st' effects) = false /\
      (forall e, In e effects ->
         exists img, bgImg st1 = Some img /\ e = loadImage (src img)) /\
      (forall img, bgImg st1 = Some img -> src img <> [] ->
         effects = [loadImage (src img)]).
Proof.
  intros st1 st2 text Hfin Hexp Harea.
  eexists _, _. split; [exact (import_of_export st1 st2 text Hfin Hexp Harea)|].
  do 3 (split; [reflexivity|]).
  destruct (bgImg st1) as [[[|c s]]|]; cbn; (split; [reflexivity|]); split.
  - intros e He. contradiction.
  - intros img Himg Hsrc. injection Himg as <-. contradiction.
  - intros e [<-|He]; [|contradiction]. eexists. split; reflexivity.
  - intros img Himg _. injection Himg as <-. reflexivity.
  - intros e He. contradiction.
  - intros img Himg. discriminate Himg.
Qed.

(** C2.  When the text to import is not parseable as JSON, the import
    shows the alert and leaves the state as it was: shape list, background
    rotation and background image are unchanged and no image load is
    started.  Whenever the import shows the alert, the state is as it was
    before. *)
Theorem import_unparseable :
  forall (st : State) (text : jsstring),
    textAreaEl st = Some text ->
    parse text = None ->
    handleJSONImport st = Typed st [alert (js "Falied to import JSON")] /\
    alerted (handleJSONImport st) = true /\
    (forall st0 : State,
       alerted (handleJSONImport st0) = true ->
       handleJSONImport st0 = Typed st0 [alert (js "Falied to import JSON")]).
Proof.
  intros st text Harea Hparse.
  assert (H : handleJSONImport st = Typed st [alert (js "Falied to import JSON")])
    by (unfold handleJSONImport; rewrite Harea, Hparse; reflexivity).
  split; [exact H|]. split; [rewrite H; reflexivity|].
  intros st0. unfold handleJSONImport.
  destruct (textAreaEl st0) as [t|]; [|discriminate].
  destruct (parse t) as [[]|]; try reflexivity;
    (destruct (as_Document _) as [doc|]; [|discriminate]);
    cbn; destruct (doc_bgImgSrc doc) as [[|c0 s0]|]; discriminate.
Qed.

End Document.

(** ** The theorems at sample inputs

    Each lemma below instantiates one of the theorems above at a sample
    state, with the hypotheses of the theorem checked by evaluation. *)
Section Samples.

Import Main.

Lemma rect_gesture_extent_witness :
  Main.drawMode (sample_host RECT (int 0) []) = RECT /\
  exists r hs' ps',
    draw (js "9d4c-new") true (point 10 10) ([point 12 14] ++ [point 4 25])
      (sample_host RECT (int 0) [], sample_paint) = Some (hs', ps') /\
    Main.shapes hs' = sample_shapes ++ [Rect r] /\
    PaintRect.x r = int 10 /\ PaintRect.y r = int 10 /\
    PaintRect.width r = int (-6) /\ PaintRect.height r = int 15 /\
    num_ltb (PaintRect.width r) (int 0) = true.
Proof.
  split; [reflexivity|].
  destruct (rect_gesture_extent (sample_host RECT (int 0) []) sample_paint
              (js "9d4c-new") true (point 10 10) [point 12 14] (point 4 25) eq_refl)
    as (r & hs' & ps' & Hd & Hs & Hx & Hy & Hw & Hh & Hneg & _).
  exists r, hs', ps'. split; [exact Hd|]. split; [exact Hs|].
  split; [exact Hx|]. split; [exact Hy|]. split; [exact Hw|].
  split; [exact Hh|]. exact (Hneg eq_refl eq_refl).
Defined.

Lemma ellipse_gesture_radii_witness :
  Main.drawMode (sample_host ELLIPSE (int 0) []) = ELLIPSE /\
  exists e hs' ps',
    draw (js "9d4c-new") false (point 10 10) ([] ++ [point 4 25])
      (sample_host ELLIPSE (int 0) [], sample_paint) = Some (hs', ps') /\
    Main.shapes hs' = sample_shapes ++ [Ellipse e] /\
    PaintEllipse.radiusX e = int 6 /\ PaintEllipse.radiusY e = int 15 /\
    num_leb (int 0) (PaintEllipse.radiusX e) = true.
Proof.
  split; [reflexivity|].
  destruct (ellipse_gesture_radii (sample_host ELLIPSE (int 0) []) sample_paint
              (js "9d4c-new") false (point 10 10) [] (point 4 25) eq_refl)
    as (e & hs' & ps' & Hd & Hs & Hrx & Hry & _ & _ & Hpos & _).
  exists e, hs', ps'. split; [exact Hd|]. split; [exact Hs|].
  split; [exact Hrx|]. split; [exact Hry|]. exact (Hpos eq_refl eq_refl).
Defined.



Lemma readonly_click_no_effect_witness :
  Paint.shapes (props (sample_host SELECT (int 0) [])) !! 0%nat
    = Some (Rect sample_rect) /\
  shape_readonly (Rect sample_rect) = true /\
  Paint.handleShapeClick (props (sample_host SELECT (int 0) [])) 0 sample_paint
    = (sample_paint, false).
Proof.
  split; [reflexivity|]. split; [reflexivity|].
  exact (proj1 (proj2 (readonly_click_no_effect
                         (props (sample_host SELECT (int 0) [])) sample_paint
                         0 (Rect sample_rect) eq_refl eq_refl))).
Defined.


Lemma pointer_up_without_draft_witness :
  Paint.drawTarget sample_paint = None /\
  exists ps' hs',
    Paint.handleCanvasMouseUp sample_paint = (ps', Paint.onDrawEnd None) /\
    Paint.drawTarget ps' = None /\
    Main.handle (Paint.onDrawEnd None) (sample_host TEXT_L (int 0) [])
      = Some hs' /\
    shapes hs' = sample_shapes /\
    drawMode hs' = SELECT.
Proof.
  split; [reflexivity|].
  exact (pointer_up_without_draft (sample_host TEXT_L (int 0) []) sample_paint
           eq_refl).
Defined.

Lemma text_input_other_shapes_witness :
  sample_shapes !! 1%nat = Some (Ellipse sample_ellipse) /\
  isPaintEllipse (Ellipse sample_ellipse) = true /\
  handleTextInput 1 (js "x") sample_shapes = Some sample_shapes /\
  [Text (sample_text [])] !! 0%nat = Some (Text (sample_text [])) /\
  handleTextInput 0 (js "Backspace") [Text (sample_text [])]
    = Some [Text (sample_text [])].
Proof.
  split; [reflexivity|]. split; [reflexivity|]. split.
  - exact (proj1 (text_input_other_shapes sample_shapes 1 (js "x")
                    (Ellipse sample_ellipse) eq_refl)
             (or_intror eq_refl)).
  - split; [reflexivity|]. reflexivity.
Defined.

Lemma export_import_round_trip_witness :
  document_finite (sample_host SELECT (int 90) []) = true /\
  textAreaEl (handleJSONExport (sample_host SELECT (int 90) []))
  = Some (stringify (document_value (sample_host SELECT (int 90) []))) /\
  textAreaEl (initial (Some (stringify (document_value
                                          (sample_host SELECT (int 90) [])))))
  = Some (stringify (document_value (sample_host SELECT (int 90) []))) /\
  shapes (initial (Some (stringify (document_value
                                      (sample_host SELECT (int 90) [])))))
  = [] /\
  exists st' effects,
    handleJSONImport
      (initial (Some (stringify (document_value
                                   (sample_host SELECT (int 90) [])))))
      = Typed st' effects /\
    shapes st' = sample_shapes /\
    bgImgRotation st' = int 90 /\
    effects = [loadImage (js "data:image/png;base64,iVBORw0KGgo=")].
Proof.
  split; [reflexivity|]. split; [reflexivity|]. split; [reflexivity|].
  split; [reflexivity|].
  destruct (export_import_round_trip (sample_host SELECT (int 90) [])
              (initial (Some (stringify (document_value
                                           (sample_host SELECT (int 90) [])))))
              _ eq_refl eq_refl eq_refl)
    as (st' & effects & Hi & Hs & Hr & _ & _ & _ & Hload).
  exists st', effects. split; [exact Hi|]. split; [exact Hs|].
  split; [exact Hr|]. exact (Hload _ eq_refl ltac:(discriminate)).
Defined.

Lemma import_unparseable_witness :
  textAreaEl (sample_host SELECT (int 90) (js "{shapes: oops"))
    = Some (js "{shapes: oops") /\
  parse (js "{shapes: oops") = None /\
  handleJSONImport (sample_host SELECT (int 90) (js "{shapes: oops"))
    = Typed (sample_host SELECT (int 90) (js "{shapes: oops"))
            [alert (js "Falied to import JSON")].
Proof.
  split; [reflexivity|]. split; [reflexivity|].
  exact (proj1 (import_unparseable
                  (sample_host SELECT (int 90) (js "{shapes: oops"))
                  (js "{shapes: oops") eq_refl eq_refl)).
Defined.

(** C1 as stated fails: a document whose background rotation is [NaN]
    is exported with the rotation [null], and the import of that text
    does not give the rotation back. *)
Lemma export_import_nan_rotation :
  ~ exists st' effects,
      handleJSONImport (handleJSONExport (sample_host SELECT NaN []))
        = Typed st' effects /\
      shapes st' = shapes (sample_host SELECT NaN []) /\
      bgImgRotation st' = bgImgRotation (sample_host SELECT NaN []).
Proof.
  intros (st' & effects & H & _). vm_compute in H. discriminate H.
Qed.

(** What the import of that text reads as the rotation. *)
Lemma export_nan_rotation_null :
  (text ← textAreaEl (handleJSONExport (sample_host SELECT NaN []));
   data ← parse text;
   get (js "bgImgRotation") data) = Some JNull.
Proof. vm_compute. reflexivity. Qed.

End Samples.

(** ** More on the draw session *)
Section DrawSessionMore.

Import Paint.

(** Of two moves in a row, the later one decides the draft. *)
Lemma resizeDrawTarget_twice p q target :
  resizeDrawTarget q (resizeDrawTarget p target) = resizeDrawTarget q target.
Proof. destruct target as [[r|e|t]|]; reflexivity. Qed.

Lemma moved_last moves q st :
  moved (moves ++ [q]) st = moved [q] st.
Proof.
  revert st. induction moves as [|p moves IH]; intros st; [reflexivity|].
  change (moved ((p :: moves) ++ [q]) st)
    with (moved (moves ++ [q]) (handleCanvasMouseMove (Some p) st)).
  rewrite IH. unfold moved, handleCanvasMouseMove, setDrawTarget. simpl.
  rewrite resizeDrawTarget_twice. reflexivity.
Qed.

(** X1.  The shape a gesture commits depends on the pointer path only
    through its last position: the moves before the last one leave no
    trace, in any draw mode. *)
Theorem gesture_last_move_only :
  forall uuid coe p0 moves q (app : Main.State * State),
    draw uuid coe p0 (moves ++ [q]) app = draw uuid coe p0 [q] app.
Proof.
  intros uuid coe p0 moves q [hs ps]. unfold draw, gesture.
  rewrite moved_last. reflexivity.
Qed.

(** X2.  A text drawn from [p0] and released after the pointer reached
    [p1] is committed with [x = x0], [y = y0], [width = x1 - x0], the text
    [TEXT] and the font size of the mode, 16 for [TEXT_S] and 32 for
    [TEXT_L]; the vertical position of the release is not used. *)
Theorem text_gesture_extent :
  forall (hs : Main.State) (ps : State) uuid coe p0 moves p1,
    Main.drawMode hs = TEXT_S \/ Main.drawMode hs = TEXT_L ->
    exists t hs' ps',
      draw uuid coe p0 (moves ++ [p1]) (hs, ps) = Some (hs', ps') /\
      Main.shapes hs' = Main.shapes hs ++ [Text t] /\
      PaintText.x t = pos_x p0 /\
      PaintText.y t = pos_y p0 /\
      PaintText.width t = num_sub (pos_x p1) (pos_x p0) /\
      PaintText.fontSize t =
        match Main.drawMode hs with TEXT_S => int 16 | _ => int 32 end /\
      PaintText.text t = js "TEXT".
Proof.
  intros hs ps uuid coe p0 moves p1 Hmode.
  unfold draw, gesture. rewrite moved_last.
  unfold moved, handleCanvasMouseDown. cbn [fst snd Main.props drawMode fold_left].
  destruct Hmode as [Hm|Hm]; rewrite Hm; destruct coe;
    eexists _, _, _; (split; [reflexivity|]); cbn; repeat split.
Qed.

(** X3.  In a drawing mode every gesture that starts on the empty canvas
    (the pointer goes down on the stage or on the background image, so that
    no handler of a shape's node is involved), whatever the moves, commits
    exactly one new shape at the end of the host's list and keeps the
    shapes already there.  The new shape is of the kind of the mode, sits at
    the pointer-down position, carries the generated key, the host's
    read-only flag and the pen colour with opacity 1 as stroke (or text
    colour) and 0.3 as fill.  Afterwards there is no draft, nothing is
    selected, and the host is back in [SELECT] mode with its other state
    as before. *)
Theorem draw_commits_one_shape :
  forall (hs : Main.State) (ps : State) uuid p0 moves,
    Main.drawMode hs <> SELECT ->
    exists s hs' ps',
      draw uuid true p0 moves (hs, ps) = Some (hs', ps') /\
      hs' = Main.setShapes (Main.shapes hs ++ [s]) (Main.setDrawMode SELECT hs) /\
      Main.shapes hs' = Main.shapes hs ++ [s] /\
      Main.drawMode hs' = SELECT /\
      drawTarget ps' = None /\
      selectedShape ps' = None /\
      shape_key s = uuid /\
      shape_readonly s = Main.readonly hs /\
      shape_x s = pos_x p0 /\
      shape_y s = pos_y p0 /\
      match s with
      | Rect r =>
          Main.drawMode hs = RECT /\
          PaintRect.strokeColor r
            = getRGBFromPenColor (Main.penColor hs) (int 1) /\
          PaintRect.fillColor r
            = getRGBFromPenColor (Main.penColor hs) (Fin 3 1)
      | Ellipse e =>
          Main.drawMode hs = ELLIPSE /\
          PaintEllipse.strokeColor e
            = getRGBFromPenColor (Main.penColor hs) (int 1) /\
          PaintEllipse.fillColor e
            = getRGBFromPenColor (Main.penColor hs) (Fin 3 1)
      | Text t =>
          (Main.drawMode hs = TEXT_S \/ Main.drawMode hs = TEXT_L) /\
          PaintText.color t = getRGBFromPenColor (Main.penColor hs) (int 1)
      end.
Proof.
  intros hs ps uuid p0 moves Hmode.
  assert (Hone : exists q, draw uuid true p0 moves (hs, ps)
                           = draw uuid true p0 q (hs, ps) /\ (q = [] \/ exists p1, q = [p1])).
  { destruct moves as [|p1 moves _] using rev_ind.
    - exists []. auto.
    - exists [p1]. split; [|eauto]. unfold draw, gesture.
      rewrite moved_last. reflexivity. }
  destruct Hone as (q & -> & Hq).
  unfold draw, gesture, moved, handleCanvasMouseDown.
  cbn [fst snd Main.props drawMode penColor readonly].
  destruct (Main.drawMode hs) eqn:Hm; [contradiction|..];
    destruct Hq as [->|[p1 ->]];
    eexists _, _, _; (split; [reflexivity|]); cbn; auto 20.
Qed.

(** X4.  In [SELECT] mode, and with no draft pending, a gesture on the
    empty canvas (the pointer goes down on the stage or on the background
    image, so that no handler of a shape's node is involved) leaves the host
    as it was and adds no shape; in the component it clears the selection
    and changes nothing else. *)
Theorem select_mode_gesture :
  forall (hs : Main.State) (ps : State) uuid p0 moves,
    Main.drawMode hs = SELECT ->
    drawTarget ps = None ->
    draw uuid true p0 moves (hs, ps) = Some (hs, setSelectedShape None ps).
Proof.
  intros hs ps uuid p0 moves Hmode Hdraft.
  unfold draw, gesture, handleCanvasMouseDown.
  cbn [fst snd Main.props drawMode]. rewrite Hmode.
  set (st1 := setSelectedShape None ps).
  assert (Hst1 : drawTarget st1 = None) by exact Hdraft.
  assert (Hmoved : forall st, drawTarget st = None -> moved moves st = st).
  { induction moves as [|m ms IH]; intros st Hst; [reflexivity|].
    cbn [moved fold_left]. fold (moved ms (handleCanvasMouseMove (Some m) st)).
    assert (Hm : handleCanvasMouseMove (Some m) st = st).
    { unfold handleCanvasMouseMove, setDrawTarget. rewrite Hst.
      destruct st; simpl in *; subst; reflexivity. }
    rewrite Hm. apply IH, Hst. }
  rewrite (Hmoved st1 Hst1). unfold handleCanvasMouseUp. rewrite Hst1.
  cbn [Main.handle Main.handleCanvasDrawEnd mbind option_bind].
  f_equal. f_equal.
  - destruct hs; simpl in *; subst; reflexivity.
  - unfold st1. destruct ps; simpl in *; subst; reflexivity.
Qed.

End DrawSessionMore.

(** ** More on selection and keys *)
Section SelectionMore.

Import Paint.

(** X5.  A click on a committed shape that is not read-only selects it:
    the callback is called and the selection is its index and key.  When
    the keys of the list are distinct, the transform handles are attached
    to that shape and to no other. *)
Theorem click_selects_that_shape_only :
  forall (p : Props) (st : State) shapeIdx shape,
    shapes p !! shapeIdx = Some shape ->
    shape_readonly shape = false ->
    NoDup (shape_key <$> shapes p) ->
    exists st',
      handleShapeClick p shapeIdx st = (st', true) /\
      selectedShape st' = Some (shapeIdx, shape_key shape) /\
      drawTarget st' = drawTarget st /\
      forall j s, shapes p !! j = Some s ->
        (transformer_attached st' s = true <-> j = shapeIdx).
Proof.
  intros p st shapeIdx shape Hs Hro Hnd.
  unfold handleShapeClick, ShapeList_onSelect. rewrite Hs, Hro.
  eexists. split; [reflexivity|]. split; [reflexivity|]. split; [reflexivity|].
  intros j s Hj. unfold transformer_attached, selected, str_eqb. cbn.
  rewrite bool_decide_eq_true. split.
  - intros Hk. eapply (NoDup_lookup _ j shapeIdx (shape_key shape) Hnd).
    + rewrite list_lookup_fmap, Hj. simpl. congruence.
    + rewrite list_lookup_fmap, Hs. reflexivity.
  - intros ->. congruence.
Qed.

(** X6.  A shape drawn while the host is read-only cannot be selected:
    a click on it calls nothing and leaves the component as it is, also
    after the host's read-only switch has been turned off again, as the
    flag is the one the shape got at pointer-down. *)
Theorem readonly_draft_not_selectable :
  forall (hs : Main.State) (ps : State) uuid coe p0 moves,
    Main.drawMode hs <> SELECT ->
    Main.readonly hs = true ->
    exists hs' ps',
      draw uuid coe p0 moves (hs, ps) = Some (hs', ps') /\
      length (Main.shapes hs') = S (length (Main.shapes hs)) /\
      handleShapeClick (Main.props hs') (length (Main.shapes hs)) ps'
        = (ps', false) /\
      handleShapeClick (Main.props (Main.handleReadonlyChange hs'))
        (length (Main.shapes hs)) ps' = (ps', false).
Proof.
  intros hs ps uuid coe p0 moves Hmode Hro.
  assert (Hone : exists q, draw uuid coe p0 moves (hs, ps)
                           = draw uuid coe p0 q (hs, ps) /\ (q = [] \/ exists p1, q = [p1])).
  { destruct moves as [|p1 moves _] using rev_ind.
    - exists []. auto.
    - exists [p1]. split; [|eauto]. unfold draw, gesture.
      rewrite moved_last. reflexivity. }
  destruct Hone as (q & -> & Hq).
  unfold draw, gesture, moved, handleCanvasMouseDown.
  cbn [fst snd Main.props drawMode penColor readonly]. rewrite Hro.
  destruct (Main.drawMode hs) eqn:Hm; [contradiction|..];
    destruct Hq as [->|[p1 ->]]; destruct coe;
    eexists _, _; (split; [reflexivity|]);
    unfold handleShapeClick; cbn;
    rewrite ?length_app, ?lookup_app_r, ?Nat.sub_diag by lia; cbn;
    (split; [lia|split; reflexivity]).
Qed.

End SelectionMore.

(** ** Keys and text input *)
Section Keys.

Import Paint.

Lemma handleKeys_unselected keys st :
  selectedShape st = None -> handleKeys keys st = (st, []).
Proof.
  intros Hst. induction keys as [|key keys IH]; [reflexivity|].
  cbn [handleKeys]. unfold handleKey. rewrite Hst, IH. reflexivity.
Qed.

Lemma handleKeys_forwarded keys st index k :
  selectedShape st = Some (index, k) ->
  Forall (fun key => key <> js "Enter") keys ->
  handleKeys keys st = (st, List.map (onTextInput index) keys).
Proof.
  intros Hst Hkeys. induction Hkeys as [|key keys Hkey _ IH]; [reflexivity|].
  cbn [handleKeys]. unfold handleKey, str_eqb. rewrite Hst.
  rewrite bool_decide_eq_false_2 by exact Hkey. rewrite IH. reflexivity.
Qed.

(** X7.  [Enter] ends the text input: the keys before it are forwarded to
    the selected index, one call of [onTextInput] each, [Enter] itself and
    every key after it are forwarded nowhere, and the selection is cleared. *)
Theorem enter_ends_text_input :
  forall keys1 keys2 (st : State) index k,
    selectedShape st = Some (index, k) ->
    Forall (fun key => key <> js "Enter") keys1 ->
    handleKeys (keys1 ++ js "Enter" :: keys2) st =
    (setSelectedShape None st, List.map (onTextInput index) keys1).
Proof.
  intros keys1 keys2 st index k Hst Hkeys.
  induction Hkeys as [|key keys Hkey _ IH].
  - cbn [app handleKeys]. unfold handleKey. rewrite Hst.
    replace (str_eqb (js "Enter") (js "Enter")) with true by reflexivity.
    rewrite handleKeys_unselected by reflexivity. reflexivity.
  - cbn [app handleKeys]. unfold handleKey at 1, str_eqb. rewrite Hst.
    rewrite bool_decide_eq_false_2 by exact Hkey.
    fold (keys ++ js "Enter" :: keys2). rewrite IH. reflexivity.
Qed.

End Keys.

Section TextInput.

Import Main.

Lemma handleTextInput_append index char (l : list PaintShape) t :
  l !! index = Some (Text t) -> char <> js "Backspace" ->
  handleTextInput index char l =
  Some (<[index := Text (text_set_text (PaintText.text t ++ char) t)]> l).
Proof.
  intros Hl Hc. unfold handleTextInput, str_eqb. rewrite Hl.
  cbn [mbind option_bind]. rewrite bool_decide_eq_false_2 by exact Hc.
  reflexivity.
Qed.

Lemma text_set_text_twice a b t :
  text_set_text a (text_set_text b t) = text_set_text a t.
Proof. reflexivity. Qed.

(** X8.  Keys typed while a text shape is selected, none of them [Enter]
    or [Backspace], are appended to its text in the order typed; the
    selection stays, and every other shape and the length of the list are
    as before. *)
Theorem typed_keys_append :
  forall keys (hs : State) (ps : Paint.State) index k t,
    Paint.selectedShape ps = Some (index, k) ->
    shapes hs !! index = Some (Text t) ->
    Forall (fun key => key <> js "Enter" /\ key <> js "Backspace") keys ->
    exists hs',
      Paint.handleKeys keys ps = (ps, List.map (Paint.onTextInput index) keys) /\
      handleAll (List.map (Paint.onTextInput index) keys) hs = Some hs' /\
      shapes hs' =
        <[index := Text (text_set_text (PaintText.text t ++ concat keys) t)]>
          (shapes hs).
Proof.
  intros keys hs ps index k t Hsel Ht Hkeys.
  assert (Hfw : Forall (fun key => key <> js "Enter") keys)
    by (eapply Forall_impl; [exact Hkeys|]; intros ? []; assumption).
  rewrite (handleKeys_forwarded keys ps index k Hsel Hfw).
  assert (H : forall hs t, shapes hs !! index = Some (Text t) ->
            exists hs', handleAll (List.map (Paint.onTextInput index) keys) hs = Some hs' /\
            shapes hs' = <[index := Text (text_set_text (PaintText.text t ++ concat keys) t)]>
                           (shapes hs)).
  { clear Hsel Ht Hfw hs t.
    induction Hkeys as [|key keys [_ Hkey] _ IH]; intros hs t Ht.
    - exists hs. split; [reflexivity|]. cbn [concat]. rewrite app_nil_r.
      symmetry. apply list_insert_id. rewrite Ht. do 2 f_equal.
      destruct t; reflexivity.
    - cbn [List.map handleAll handle].
      rewrite (handleTextInput_append index key (shapes hs) t Ht Hkey).
      cbn [mbind option_bind].
      set (t1 := text_set_text (PaintText.text t ++ key) t).
      set (hs1 := setShapes (<[index:=Text t1]> (shapes hs)) hs).
      assert (Ht1 : shapes hs1 !! index = Some (Text t1)).
      { unfold hs1. cbn [shapes setShapes].
        apply list_lookup_insert_eq. eapply lookup_lt_Some, Ht. }
      destruct (IH hs1 t1 Ht1) as (hs' & Hall & Hsh).
      exists hs'. split; [exact Hall|]. rewrite Hsh.
      unfold hs1. cbn [shapes setShapes]. rewrite list_insert_insert_eq.
      unfold t1. cbn [concat PaintText.text text_set_text].
      rewrite <- app_assoc. reflexivity. }
  destruct (H hs t Ht) as (hs' & Hall & Hsh). exists hs'. auto.
Qed.


(** X10.  A key pressed while the selected index is past the end of the
    host's list (the selection is kept when an import replaces the list by
    a shorter one) is still forwarded, and the host's updater throws. *)
Theorem stale_selection_throws :
  forall (hs : State) (ps : Paint.State) index k key,
    Paint.selectedShape ps = Some (index, k) ->
    (length (shapes hs) <= index)%nat ->
    key <> js "Enter" ->
    Paint.handleKey key ps = (ps, Some (Paint.onTextInput index key)) /\
    handle (Paint.onTextInput index key) hs = None.
Proof.
  intros hs ps index k key Hsel Hlen Hkey. split.
  - unfold Paint.handleKey, str_eqb. rewrite Hsel.
    rewrite bool_decide_eq_false_2 by exact Hkey. reflexivity.
  - cbn [handle]. unfold handleTextInput.
    rewrite (lookup_ge_None_2 _ _ Hlen). reflexivity.
Qed.

End TextInput.

(** ** More on the updaters of the shape list *)
Section Updaters.

Import Main.

(** X11.  Each of the three updaters throws exactly when the index is
    past the end of the list. *)
Theorem updaters_out_of_range :
  forall (l : list PaintShape) index pos size char,
    (handleShapeMoveEnd index pos l = None <-> (length l <= index)%nat) /\
    (handleShapeResizeEnd index size l = None <-> (length l <= index)%nat) /\
    (handleTextInput index char l = None <-> (length l <= index)%nat).
Proof.
  intros l index pos size char.
  unfold handleShapeMoveEnd, handleShapeResizeEnd, handleTextInput.
  rewrite <- (lookup_ge_None l index).
  destruct (l !! index) as [s|]; cbn [mbind option_bind];
    repeat split; intros H; try discriminate H; reflexivity.
Qed.

Lemma fmap_insert_same {B} (f : PaintShape -> B) (l : list PaintShape) i s s' :
  l !! i = Some s -> f s' = f s -> f <$> <[i := s']> l = f <$> l.
Proof.
  intros Hl Hf. rewrite list_fmap_insert, Hf. apply list_insert_id.
  rewrite list_lookup_fmap, Hl. reflexivity.
Qed.

(** X12.  None of the three updaters changes the length of the list or
    the key, the kind or the read-only flag of any shape; a resize-end and
    a text input also leave every position as it is. *)
Theorem updaters_keep_identity :
  forall (l l' : list PaintShape) index pos size char,
    (handleShapeMoveEnd index pos l = Some l' \/
     handleShapeResizeEnd index size l = Some l' \/
     handleTextInput index char l = Some l' ->
     length l' = length l /\
     shape_key <$> l' = shape_key <$> l /\
     shape_type <$> l' = shape_type <$> l /\
     shape_readonly <$> l' = shape_readonly <$> l) /\
    (handleShapeResizeEnd index size l = Some l' \/
     handleTextInput index char l = Some l' ->
     shape_x <$> l' = shape_x <$> l /\ shape_y <$> l' = shape_y <$> l).
Proof.
  intros l l' index pos size char.
  unfold handleShapeMoveEnd, handleShapeResizeEnd, handleTextInput.
  destruct (l !! index) as [s|] eqn:Hs; cbn [mbind option_bind];
    [|split; intros H; repeat destruct H as [H|H]; discriminate H].
  assert (Hsame : forall {B} (f : PaintShape -> B) s',
            f s' = f s -> f <$> <[index := s']> l = f <$> l)
    by (intros B f s' Hf; apply (fmap_insert_same f l index s s' Hs Hf)).
  split.
  - intros H. destruct H as [H|[H|H]]; injection H as <-;
      (split; [apply length_insert|]);
      repeat split; apply Hsame; destruct s as [r|e|t]; try reflexivity;
      destruct (str_eqb char (js "Backspace")); reflexivity.
  - intros H. destruct H as [H|H]; injection H as <-;
      split; apply Hsame; destruct s as [r|e|t]; try reflexivity;
      destruct (str_eqb char (js "Backspace")); reflexivity.
Qed.

(** X13.  Of two move-ends at the same index the later one decides; a
    move-end and a resize-end, at the same or at different indices, give
    the same list in either order. *)
Theorem move_and_resize_compose :
  forall (l : list PaintShape) i j pos1 pos2 size,
    (handleShapeMoveEnd i pos1 l ≫= handleShapeMoveEnd i pos2
     = handleShapeMoveEnd i pos2 l) /\
    (handleShapeMoveEnd i pos1 l ≫= handleShapeResizeEnd j size
     = handleShapeResizeEnd j size l ≫= handleShapeMoveEnd i pos1).
Proof.
  intros l i j pos1 pos2 size. split.
  - unfold handleShapeMoveEnd.
    destruct (l !! i) as [s|] eqn:Hs; cbn [mbind option_bind]; [|reflexivity].
    rewrite list_lookup_insert_eq by (eapply lookup_lt_Some, Hs).
    cbn [mbind option_bind]. rewrite list_insert_insert_eq.
    do 2 f_equal. destruct s; reflexivity.
  - unfold handleShapeMoveEnd, handleShapeResizeEnd.
    destruct (l !! i) as [s|] eqn:Hs, (l !! j) as [s2|] eqn:Hs2;
      cbn [mbind option_bind].
    + destruct (decide (i = j)) as [->|Hij].
      * rewrite !list_lookup_insert_eq by (eapply lookup_lt_Some, Hs).
        cbn [mbind option_bind]. rewrite !list_insert_insert_eq.
        replace s2 with s by congruence.
        do 2 f_equal. destruct s; reflexivity.
      * rewrite !list_lookup_insert_ne by congruence. rewrite Hs, Hs2.
        cbn [mbind option_bind]. rewrite list_insert_insert_ne by congruence.
        reflexivity.
    + rewrite list_lookup_insert_ne by congruence. rewrite Hs2. reflexivity.
    + rewrite list_lookup_insert_ne by congruence. rewrite Hs. reflexivity.
    + reflexivity.
Qed.

End Updaters.

(** ** Rotation of the background and the transform of a node *)
Section Rotation.

Import Main.

Lemma State_ext (st st' : State) :
  readonly st = readonly st' -> drawMode st = drawMode st' ->
  penColor st = penColor st' -> shapes st = shapes st' ->
  bgImg st = bgImg st' -> bgImgRotation st = bgImgRotation st' ->
  textAreaEl st = textAreaEl st' -> st = st'.
Proof. destruct st, st'; cbn; intros; subst; reflexivity. Qed.

Lemma rotate_int st m :
  bgImgRotation st = int m ->
  bgImgRotation (rotateBackgroundImage st) = int (Z.rem (m + 90) 360).
Proof.
  intros Hr. unfold rotateBackgroundImage. cbn [bgImgRotation setBgImgRotation].
  rewrite Hr. unfold int, num_add, num_rem. cbn [normalize Nat.add Z.of_nat].
  rewrite Z.pow_0_r, !Z.mul_1_r. reflexivity.
Qed.

(** X14.  Rotating a background whose rotation is an integer [m] with
    [-90 <= m] and [m + 90 <= 2^53] (the range in which the sum of the code
    is the exact one) gives the integer [(m + 90) mod 360], which lies in
    [0, 360); nothing else of the state changes, and four rotations of a
    rotation in [0, 360) give it back. *)
Theorem rotate_quarter_turns :
  forall (st : State) m,
    bgImgRotation st = int m ->
    -90 <= m ->
    m + 90 <= 2 ^ 53 ->
    bgImgRotation (rotateBackgroundImage st) = int ((m + 90) mod 360) /\
    0 <= (m + 90) mod 360 < 360 /\
    shapes (rotateBackgroundImage st) = shapes st /\
    bgImg (rotateBackgroundImage st) = bgImg st /\
    (m < 360 -> 0 <= m ->
     rotateBackgroundImage (rotateBackgroundImage (rotateBackgroundImage
       (rotateBackgroundImage st))) = st).
Proof.
  intros st m Hr Hm _.
  assert (Hstep : forall st a, bgImgRotation st = int a -> 0 <= a + 90 ->
            bgImgRotation (rotateBackgroundImage st) = int ((a + 90) mod 360)).
  { intros st0 a H0 Ha. rewrite (rotate_int st0 a H0).
    rewrite Z.rem_mod_nonneg by lia. reflexivity. }
  split; [apply Hstep; [exact Hr|lia]|].
  split; [apply Z.mod_pos_bound; lia|].
  split; [reflexivity|]. split; [reflexivity|].
  intros Hlt Hge.
  pose proof (Z.mod_pos_bound (m + 90) 360 ltac:(lia)) as B1.
  pose proof (Z.mod_pos_bound ((m + 90) mod 360 + 90) 360 ltac:(lia)) as B2.
  pose proof (Z.mod_pos_bound (((m + 90) mod 360 + 90) mod 360 + 90) 360 ltac:(lia)) as B3.
  pose proof (Hstep st m Hr ltac:(lia)) as H1.
  pose proof (Hstep _ _ H1 ltac:(lia)) as H2.
  pose proof (Hstep _ _ H2 ltac:(lia)) as H3.
  pose proof (Hstep _ _ H3 ltac:(lia)) as H4.
  assert (Hback : ((((m + 90) mod 360 + 90) mod 360 + 90) mod 360 + 90) mod 360 = m).
  { clear -Hlt Hge. Z.div_mod_to_equations. lia. }
  rewrite Hback in H4.
  apply State_ext; try reflexivity. rewrite H4, Hr. reflexivity.
Qed.

(** X15.  A rotation that is not a finite number becomes [NaN] by a
    rotation and stays [NaN] under every further one. *)
Theorem rotate_not_finite :
  forall (st : State),
    is_finite (bgImgRotation st) = false ->
    bgImgRotation (rotateBackgroundImage st) = NaN /\
    bgImgRotation (rotateBackgroundImage (rotateBackgroundImage st)) = NaN.
Proof.
  intros st Hnf. unfold rotateBackgroundImage.
  cbn [bgImgRotation setBgImgRotation].
  destruct (bgImgRotation st) as [m k| |s]; [discriminate| |]; split; reflexivity.
Qed.

End Rotation.

Section Transform.

Import Paint.



End Transform.

(** ** More on export and import *)
Section DocumentMore.

Import Main.

(** X17.  The text exported from a finite document [st1], put into the
    text area of any state [st2] and imported there, replaces the shape
    list and the rotation of [st2] by those of [st1] without an alert; the
    background image, the draw mode, the pen colour and the read-only
    switch of [st2] stay, and a load of the image of [st1] is started when
    it has a non-empty source. *)
Theorem import_exported_text :
  forall (st1 st2 : State) text,
    document_finite st1 = true ->
    textAreaEl (handleJSONExport st1) = Some text ->
    textAreaEl st2 = Some text ->
    handleJSONImport st2 =
    Typed (setShapes (shapes st1) (setBgImgRotation (bgImgRotation st1) st2))
          match bgImg st1 with
          | Some {| src := c :: s |} => [loadImage (c :: s)]
          | _ => []
          end.
Proof.
  intros st1 st2 text Hfin Hexp Harea.
  pose proof (exported_text _ _ Hexp) as ->.
  unfold handleJSONImport. rewrite Harea.
  rewrite (parse_stringify _ (document_representable st1 Hfin)).
  rewrite as_Document_value.
  assert (Hobj : exists fields, document_value st1 = JObj fields)
    by (eexists; reflexivity).
  destruct Hobj as [fields ->].
  cbn [doc_shapes doc_bgImgRotation doc_bgImgSrc]. f_equal.
  destruct (bgImg st1) as [[[|c s]]|]; reflexivity.
Qed.

(** X18.  After such an import and the load events of the images it has
    started, the background image is the one of the exporting state when
    that had a non-empty source, and otherwise still the one the importing
    state had: an import never removes the background image. *)
Theorem import_background_image :
  forall (st1 st2 : State) text st' effects,
    document_finite st1 = true ->
    textAreaEl (handleJSONExport st1) = Some text ->
    textAreaEl st2 = Some text ->
    handleJSONImport st2 = Typed st' effects ->
    bgImg st' = bgImg st2 /\
    bgImg (fold_left (fun st e => match e with
                                  | loadImage source => handleImageLoad source st
                                  | alert _ => st
                                  end) effects st')
    = match bgImg st1 with
      | Some {| src := c :: s |} => bgImg st1
      | _ => bgImg st2
      end.
Proof.
  intros st1 st2 text st' effects Hfin Hexp Harea Himp.
  pose proof (exported_text _ _ Hexp) as ->.
  unfold handleJSONImport in Himp. rewrite Harea in Himp.
  rewrite (parse_stringify _ (document_representable st1 Hfin)) in Himp.
  rewrite as_Document_value in Himp.
  assert (Hobj : exists fields, document_value st1 = JObj fields)
    by (eexists; reflexivity).
  destruct Hobj as [fields Hf]. rewrite Hf in Himp.
  cbn [doc_shapes doc_bgImgRotation doc_bgImgSrc] in Himp.
  injection Himp as <- <-. split; [reflexivity|].
  destruct (bgImg st1) as [[[|c s]]|]; reflexivity.
Qed.


End DocumentMore.

Section NonFinite.

Import Main.

Lemma stringify_clean v : stringify (clean v) = stringify v.
Proof.
  induction v as [|b|n|s|l IH|fields IH] using value_ind'; try reflexivity.
  - cbn [clean]. destruct (is_finite n) eqn:Hn; [reflexivity|].
    cbn [stringify]. rewrite Hn. reflexivity.
  - cbn [clean stringify]. do 3 f_equal.
    rewrite List.map_map. apply map_ext_Forall, IH.
  - cbn [clean stringify]. do 3 f_equal. rewrite List.map_map.
    apply map_ext_Forall. eapply Forall_impl; [exact IH|].
    intros [k x] Hx. cbn [fst snd] in *. rewrite Hx. reflexivity.
Qed.

Lemma representable_clean v : wellformed v = true -> representable (clean v) = true.
Proof.
  induction v as [|b|n|s|l IH|fields IH] using value_ind'; try reflexivity.
  - cbn [wellformed clean]. intros Hc.
    destruct (is_finite n) eqn:Hn; [|reflexivity].
    cbn [representable]. unfold finite. rewrite Hn, Hc. reflexivity.
  - cbn [wellformed clean representable]. intros Hw.
    rewrite forallb_forall in Hw |- *. intros x Hx.
    apply in_map_iff in Hx as (y & <- & Hy).
    rewrite List.Forall_forall in IH. apply IH; auto.
  - cbn [wellformed clean representable]. intros Hw.
    apply andb_true_iff in Hw as [Hw Hd]. apply andb_true_iff. split.
    + rewrite forallb_forall in Hw |- *. intros x Hx.
      apply in_map_iff in Hx as (y & <- & Hy). cbn [snd].
      rewrite List.Forall_forall in IH. apply (IH y Hy), Hw, Hy.
    + rewrite List.map_map. cbn [fst]. exact Hd.
Qed.

(** What a well-formed value is read back as. *)
Lemma parse_stringify_clean v :
  wellformed v = true -> parse (stringify v) = Some (clean v).
Proof.
  intros Hw. rewrite <- stringify_clean.
  apply parse_stringify, representable_clean, Hw.
Qed.

Lemma PaintShape_wellformed s :
  PaintShape_canonical s = true -> wellformed (PaintShape_value s) = true.
Proof.
  destruct s as [r|e|t]; simpl;
    repeat match goal with
           | |- context [canonical ?n] => destruct (canonical n)
           end; simpl; intros H; try discriminate H; reflexivity.
Qed.

Lemma document_wellformed st :
  document_canonical st = true -> wellformed (document_value st) = true.
Proof.
  unfold document_canonical. intros H. apply andb_true_iff in H as [Hrot Hsh].
  assert (Hshapes : forallb wellformed
                      (List.map PaintShape_value (shapes st)) = true).
  { rewrite forallb_forall in Hsh |- *. intros v Hv.
    apply in_map_iff in Hv as (s & <- & Hs).
    apply PaintShape_wellformed, Hsh, Hs. }
  unfold document_value. destruct (bgImg st); simpl;
    rewrite Hrot, Hshapes; reflexivity.
Qed.

Lemma finite_canonical n :
  canonical n = true -> finite n = is_finite n.
Proof. intros H. unfold finite. rewrite H. apply andb_true_r. Qed.

Lemma as_PaintShape_clean s :
  PaintShape_canonical s = true ->
  as_PaintShape (clean (PaintShape_value s)) =
  if PaintShape_finite s then Some s else None.
Proof.
  intros Hc.
  destruct s as [[x y w h]|[x y w h]|[x y w ? ? h]];
    cbn [PaintShape_canonical PaintRect.x PaintRect.y PaintRect.width
         PaintRect.height PaintEllipse.x PaintEllipse.y PaintEllipse.radiusX
         PaintEllipse.radiusY PaintText.x PaintText.y PaintText.width
         PaintText.fontSize] in Hc;
    apply andb_true_iff in Hc as [Hc Hh];
    apply andb_true_iff in Hc as [Hc Hw];
    apply andb_true_iff in Hc as [Hx Hy];
    cbn [PaintShape_finite PaintRect.x PaintRect.y PaintRect.width
         PaintRect.height PaintEllipse.x PaintEllipse.y PaintEllipse.radiusX
         PaintEllipse.radiusY PaintText.x PaintText.y PaintText.width
         PaintText.fontSize];
    rewrite !finite_canonical by assumption;
    destruct x, y, w, h; reflexivity.
Qed.

Lemma mapM_as_PaintShape_clean (l : list PaintShape) :
  forallb PaintShape_canonical l = true ->
  mapM as_PaintShape (List.map clean (List.map PaintShape_value l)) =
  if forallb PaintShape_finite l then Some l else None.
Proof.
  induction l as [|s l IH]; [reflexivity|].
  cbn [forallb]. intros H. apply andb_true_iff in H as [Hs Hl].
  cbn [List.map mapM]. rewrite (as_PaintShape_clean s Hs), (IH Hl).
  destruct (PaintShape_finite s), (forallb PaintShape_finite l); reflexivity.
Qed.

(** X20.  A document with a number that is not finite is exported to a
    text that is read without an alert, and stored with [null] in the place
    of every such number: the state then leaves the types the source
    declares. *)
Theorem export_import_not_finite :
  forall (st : State) old,
    textAreaEl st = Some old ->
    document_canonical st = true ->
    document_finite st = false ->
    handleJSONImport (handleJSONExport st) = Untyped (clean (document_value st)) /\
    alerted (handleJSONImport (handleJSONExport st)) = false /\
    (is_finite (bgImgRotation st) = false ->
     get (js "bgImgRotation") (clean (document_value st)) = Some JNull).
Proof.
  intros st old Harea Hcan Hnf.
  assert (Himp : handleJSONImport (handleJSONExport st)
                 = Untyped (clean (document_value st))).
  { unfold handleJSONExport, handleJSONImport. rewrite Harea.
    cbn [textAreaEl setTextArea].
    rewrite (parse_stringify_clean _ (document_wellformed st Hcan)).
    assert (Hdoc : as_Document (clean (document_value st)) = None).
    { unfold document_canonical in Hcan. apply andb_true_iff in Hcan as [Hr Hs].
      unfold document_finite in Hnf. rewrite (finite_canonical _ Hr) in Hnf.
      assert (G1 : get (js "bgImgRotation") (clean (document_value st))
                   = Some (clean (JNum (bgImgRotation st))))
        by (unfold document_value; destruct (bgImg st); reflexivity).
      assert (G2 : get (js "shapes") (clean (document_value st))
                   = Some (JArr (List.map clean
                                   (List.map PaintShape_value (shapes st)))))
        by (unfold document_value; destruct (bgImg st); reflexivity).
      assert (G3 : get (js "bgImgSrc") (clean (document_value st))
                   = (fun img => JStr (src img)) <$> bgImg st)
        by (unfold document_value; destruct (bgImg st); reflexivity).
      unfold as_Document. rewrite G1, G2, G3.
      cbn [clean as_array mbind option_bind].
      rewrite (mapM_as_PaintShape_clean _ Hs).
      destruct (bgImg st) as [img|]; cbn [fmap option_fmap option_map mbind option_bind];
        destruct (is_finite (bgImgRotation st)); cbn [as_number mbind option_bind];
        try reflexivity; cbn [andb] in Hnf; rewrite Hnf; reflexivity. }
    rewrite Hdoc.
    assert (Hobj : exists fields, clean (document_value st) = JObj fields)
      by (eexists; reflexivity).
    destruct Hobj as [fields ->]. reflexivity. }
  split; [exact Himp|]. split; [rewrite Himp; reflexivity|].
  intros Hrot. unfold document_value.
  destruct (bgImg st); cbn; rewrite Hrot; reflexivity.
Qed.

End NonFinite.

(** ** Finite documents are kept *)
Section FiniteInvariant.

Import Main.

Lemma finite_normalize m k : finite (normalize m k) = true.
Proof.
  destruct (normalize_spec k m) as (m' & k' & -> & _ & _ & Hc).
  unfold finite. rewrite Hc. reflexivity.
Qed.

Lemma finite_floor_half a :
  finite a = true -> finite (Math_floor (num_div2 a)) = true.
Proof.
  unfold finite at 1. intros Ha. apply andb_true_iff in Ha as [Ha _].
  destruct a as [m k| |]; try discriminate Ha. rewrite floor_half. reflexivity.
Qed.

Lemma finite_rotation r :
  finite r = true -> finite (num_rem (num_add r (int 90)) (int 360)) = true.
Proof.
  unfold finite at 1. intros Hr. apply andb_true_iff in Hr as [Hr _].
  destruct r as [m k| |]; try discriminate Hr.
  unfold num_add, int.
  destruct (normalize_spec (k + 0) (m * 10 ^ Z.of_nat 0 + 90 * 10 ^ Z.of_nat k))
    as (m' & k' & -> & _). unfold num_rem. cbn [Z.eqb]. apply finite_normalize.
Qed.

Lemma forallb_insert {A} (P : A -> bool) (l : list A) i x :
  forallb P l = true -> P x = true -> forallb P (<[i := x]> l) = true.
Proof.
  revert i. induction l as [|y l IH]; intros i Hl Hx; [reflexivity|].
  cbn [forallb] in Hl. apply andb_true_iff in Hl as [Hy Hl].
  destruct i as [|i].
  - change (<[0%nat := x]> (y :: l)) with (x :: l). cbn [forallb].
    rewrite Hx, Hl. reflexivity.
  - change (<[S i := x]> (y :: l)) with (y :: <[i := x]> l). cbn [forallb].
    rewrite Hy, (IH i Hl Hx). reflexivity.
Qed.

Lemma forallb_lookup {A} (P : A -> bool) (l : list A) i x :
  forallb P l = true -> l !! i = Some x -> P x = true.
Proof.
  intros Hl Hi. rewrite forallb_forall in Hl. apply Hl.
  apply list_elem_of_In. eapply list_elem_of_lookup_2, Hi.
Qed.

Lemma handle_keeps_finite c st st' :
  document_finite st = true ->
  Event_finite (callback c) = true ->
  handle c st = Some st' ->
  document_finite st' = true.
Proof.
  unfold document_finite. intros Hfin He Hh.
  apply andb_true_iff in Hfin as [Hrot Hsh].
  destruct c as [[s|]|index pos|index size|index char]; cbn [handle] in Hh.
  - injection Hh as <-. cbn. rewrite Hrot, forallb_app, Hsh. cbn.
    cbn in He. rewrite He. reflexivity.
  - injection Hh as <-. cbn. rewrite Hrot, Hsh. reflexivity.
  - unfold handleShapeMoveEnd in Hh.
    destruct (shapes st !! index) as [s|] eqn:Hs; [|discriminate Hh].
    injection Hh as <-. cbn. rewrite Hrot. cbn [andb].
    apply forallb_insert; [exact Hsh|].
    pose proof (forallb_lookup _ _ _ _ Hsh Hs) as Hf.
    cbn in He. apply andb_true_iff in He as [Hx Hy].
    destruct s as [r|e|t]; cbn in Hf |- *; rewrite Hx, Hy;
      repeat match type of Hf with
             | context [finite ?n] => destruct (finite n)
             end; try discriminate Hf; reflexivity.
  - unfold handleShapeResizeEnd in Hh.
    destruct (shapes st !! index) as [s|] eqn:Hs; [|discriminate Hh].
    injection Hh as <-. cbn. rewrite Hrot. cbn [andb].
    apply forallb_insert; [exact Hsh|].
    pose proof (forallb_lookup _ _ _ _ Hsh Hs) as Hf.
    cbn in He. apply andb_true_iff in He as [Hw Hh].
    destruct s as [r|e|t]; cbn in Hf |- *;
      rewrite ?finite_floor_half by assumption; rewrite ?Hw, ?Hh;
      repeat match type of Hf with
             | context [finite ?n] => destruct (finite n)
             end; try discriminate Hf; reflexivity.
  - unfold handleTextInput in Hh.
    destruct (shapes st !! index) as [s|] eqn:Hs; [|discriminate Hh].
    injection Hh as <-. cbn [shapes bgImgRotation setShapes].
    rewrite Hrot. cbn [andb].
    apply forallb_insert; [exact Hsh|].
    pose proof (forallb_lookup _ _ _ _ Hsh Hs) as Hf.
    destruct s as [r|e|t]; try exact Hf.
    destruct (str_eqb char (js "Backspace")); exact Hf.
Qed.

Lemma step_keeps_finite_aux (e : Event) (st st' : State) :
  document_finite st = true ->
  Event_finite e = true ->
  step e st = Some st' ->
  document_finite st' = true.
Proof.
  intros Hfin He Hstep.
  destruct e; cbn [step] in Hstep.
  - exact (handle_keeps_finite _ _ _ Hfin He Hstep).
  - injection Hstep as <-. exact Hfin.
  - injection Hstep as <-. exact Hfin.
  - injection Hstep as <-. exact Hfin.
  - injection Hstep as <-. unfold document_finite in *.
    apply andb_true_iff in Hfin as [Hr Hs]. cbn.
    rewrite (finite_rotation _ Hr), Hs. reflexivity.
  - injection Hstep as <-. unfold handleJSONExport.
    destruct (textAreaEl st); exact Hfin.
  - injection Hstep as <-. destruct (textAreaEl st); exact Hfin.
  - injection Hstep as <-. exact Hfin.
Qed.

(** X21.  Every event of the host other than an import (a callback of the
    canvas, a control, the text area, the load of an image) that carries
    finite numbers, if it does not throw, takes a document whose numbers are
    all finite to a document whose numbers are all finite. *)
Theorem step_keeps_finite :
  forall (e : Event) (st st' : State),
    document_finite st = true ->
    Event_finite e = true ->
    step e st = Some st' ->
    document_finite st' = true.
Proof. exact step_keeps_finite_aux. Qed.

(** X22.  Every state reached from the first state of the host without
    an import, by events that carry finite numbers and none of which
    throws, has a finite document, and the text it exports carries that
    document: imported in any state of the host, it gives the shape list and
    the rotation back.  (An import can leave the finite documents: a text
    without a rotation, followed by a rotation, gives [NaN].) *)
Theorem reachable_documents_round_trip :
  forall (es : list Event) area (st : State),
    forallb Event_finite es = true ->
    run es (initial area) = Some st ->
    document_finite st = true /\
    forall (st2 : State) text,
      textAreaEl (handleJSONExport st) = Some text ->
      textAreaEl st2 = Some text ->
      handleJSONImport st2 =
      Typed (setShapes (shapes st) (setBgImgRotation (bgImgRotation st) st2))
            match bgImg st with
            | Some {| src := c :: s |} => [loadImage (c :: s)]
            | _ => []
            end.
Proof.
  intros es area st Hes Hrun.
  assert (Hfin : document_finite st = true).
  { assert (H : forall st0, document_finite st0 = true ->
                run es st0 = Some st -> document_finite st = true).
    { clear Hrun. induction es as [|e es IH]; intros st0 H0 Hrun.
      - injection Hrun as <-. exact H0.
      - cbn [forallb] in Hes. apply andb_true_iff in Hes as [He Hes].
        cbn [run] in Hrun.
        destruct (step e st0) as [st1|] eqn:Hs; [|discriminate Hrun].
        cbn [mbind option_bind] in Hrun.
        exact (IH Hes st1 (step_keeps_finite_aux _ _ _ H0 He Hs) Hrun). }
    exact (H (initial area) eq_refl Hrun). }
  split; [exact Hfin|].
  intros st2 text Hexp Harea. exact (import_of_export st st2 text Hfin Hexp Harea).
Qed.

End FiniteInvariant.

(** ** Pen colours *)
Section PenColours.

(** X24.  The colour string tells the pen colour and the written opacity:
    two calls that give the same string had the same pen colour and
    opacities written alike.  For every pen colour the stroke string and
    the fill string of a draft name the same three colour values, with
    opacity 1 and 0.3. *)
Theorem pen_colour_strings :
  forall c1 c2 o1 o2,
    (getRGBFromPenColor c1 o1 = getRGBFromPenColor c2 o2 ->
     c1 = c2 /\ Number_toString o1 = Number_toString o2) /\
    exists rgb,
      getRGBFromPenColor c1 (int 1) = js "rgba(" ++ rgb ++ js ",1)" /\
      getRGBFromPenColor c1 (Fin 3 1) = js "rgba(" ++ rgb ++ js ",0.3)".
Proof.
  intros c1 c2 o1 o2. split.
  - destruct c1, c2; unfold getRGBFromPenColor; intros H;
      try (cbn [js List.map list_ascii_of_string app N_of_ascii] in H;
           discriminate H);
      (split; [reflexivity|]);
      apply app_inv_head in H; apply app_inv_tail in H; exact H.
  - destruct c1.
    + exists (js "249,115,22"). split; reflexivity.
    + exists (js "34,197,94"). split; reflexivity.
    + exists (js "168,85,247"). split; reflexivity.
Qed.

End PenColours.

(** ** The further theorems at sample inputs *)
Section MoreSamples.

Import Main.

Lemma text_gesture_extent_witness :
  Main.drawMode (sample_host TEXT_L (int 0) []) = TEXT_L /\
  exists t hs' ps',
    draw (js "5a1e-new") true (point 10 10) ([point 12 14] ++ [point 70 90])
      (sample_host TEXT_L (int 0) [], sample_paint) = Some (hs', ps') /\
    Main.shapes hs' = sample_shapes ++ [Text t] /\
    PaintText.width t = int 60 /\
    PaintText.fontSize t = int 32 /\
    PaintText.text t = js "TEXT".
Proof.
  split; [reflexivity|].
  destruct (text_gesture_extent (sample_host TEXT_L (int 0) []) sample_paint
              (js "5a1e-new") true (point 10 10) [point 12 14] (point 70 90)
              (or_intror eq_refl))
    as (t & hs' & ps' & Hd & Hs & _ & _ & Hw & Hf & Ht).
  exists t, hs', ps'. split; [exact Hd|]. split; [exact Hs|].
  split; [exact Hw|]. split; [exact Hf|exact Ht].
Defined.

Lemma draw_commits_one_shape_witness :
  Main.drawMode (sample_host ELLIPSE (int 0) []) <> SELECT /\
  exists s hs' ps',
    draw (js "5a1e-new") true (point 10 10) [point 12 14; point 70 90]
      (sample_host ELLIPSE (int 0) [], sample_paint) = Some (hs', ps') /\
    Main.shapes hs' = sample_shapes ++ [s] /\
    Main.drawMode hs' = SELECT /\
    shape_key s = js "5a1e-new" /\
    shape_type s = js "ELLIPSE".
Proof.
  split; [discriminate|].
  destruct (draw_commits_one_shape (sample_host ELLIPSE (int 0) []) sample_paint
              (js "5a1e-new") (point 10 10) [point 12 14; point 70 90]
              ltac:(discriminate))
    as (s & hs' & ps' & Hd & _ & Hs & Hm & _ & _ & Hk & _ & _ & _ & Hkind).
  exists s, hs', ps'. split; [exact Hd|]. split; [exact Hs|].
  split; [exact Hm|]. split; [exact Hk|].
  destruct s as [r|e|t]; [destruct Hkind as [Hk' _]; discriminate Hk'
                         |reflexivity
                         |destruct Hkind as [[Hk'|Hk'] _]; discriminate Hk'].
Defined.

Lemma select_mode_gesture_witness :
  Main.drawMode (sample_host SELECT (int 0) []) = SELECT /\
  Paint.drawTarget sample_selection = None /\
  draw (js "5a1e-new") true (point 10 10) [point 12 14]
    (sample_host SELECT (int 0) [], sample_selection)
  = Some (sample_host SELECT (int 0) [], sample_paint).
Proof.
  split; [reflexivity|]. split; [reflexivity|].
  exact (select_mode_gesture (sample_host SELECT (int 0) []) sample_selection
           (js "5a1e-new") (point 10 10) [point 12 14] eq_refl eq_refl).
Defined.

Lemma click_selects_that_shape_only_witness :
  Paint.shapes (props (sample_host SELECT (int 0) [])) !! 2%nat
    = Some (Text (sample_text (js "AB"))) /\
  shape_readonly (Text (sample_text (js "AB"))) = false /\
  NoDup (shape_key <$> Paint.shapes (props (sample_host SELECT (int 0) []))) /\
  exists st',
    Paint.handleShapeClick (props (sample_host SELECT (int 0) [])) 2 sample_paint
      = (st', true) /\
    Paint.selectedShape st' = Some (2%nat, js "0f3e-text").
Proof.
  assert (Hnd : NoDup (shape_key <$>
                         Paint.shapes (props (sample_host SELECT (int 0) [])))).
  { apply (bool_decide_unpack _). vm_compute. exact I. }
  split; [reflexivity|]. split; [reflexivity|]. split; [exact Hnd|].
  destruct (click_selects_that_shape_only
              (props (sample_host SELECT (int 0) [])) sample_paint 2
              (Text (sample_text (js "AB"))) eq_refl eq_refl Hnd)
    as (st' & Hc & Hsel & _).
  exists st'. split; [exact Hc|exact Hsel].
Defined.

Lemma readonly_draft_not_selectable_witness :
  Main.drawMode (handleReadonlyChange (sample_host RECT (int 0) [])) <> SELECT /\
  Main.readonly (handleReadonlyChange (sample_host RECT (int 0) [])) = true /\
  exists hs' ps',
    draw (js "5a1e-new") true (point 10 10) [point 70 90]
      (handleReadonlyChange (sample_host RECT (int 0) []), sample_paint)
      = Some (hs', ps') /\
    Paint.handleShapeClick (props (handleReadonlyChange hs')) 3 ps' = (ps', false).
Proof.
  split; [discriminate|]. split; [reflexivity|].
  destruct (readonly_draft_not_selectable
              (handleReadonlyChange (sample_host RECT (int 0) [])) sample_paint
              (js "5a1e-new") true (point 10 10) [point 70 90]
              ltac:(discriminate) eq_refl)
    as (hs' & ps' & Hd & _ & _ & Hc).
  exists hs', ps'. split; [exact Hd|exact Hc].
Defined.

Lemma enter_ends_text_input_witness :
  Paint.selectedShape sample_selection = Some (2%nat, js "0f3e-text") /\
  Forall (fun key => key <> js "Enter") [js "h"; js "i"] /\
  Paint.handleKeys ([js "h"; js "i"] ++ js "Enter" :: [js "x"]) sample_selection
  = (sample_paint, [Paint.onTextInput 2 (js "h"); Paint.onTextInput 2 (js "i")]).
Proof.
  assert (Hk : Forall (fun key => key <> js "Enter") [js "h"; js "i"])
    by (repeat constructor; discriminate).
  split; [reflexivity|]. split; [exact Hk|].
  exact (enter_ends_text_input [js "h"; js "i"] [js "x"] sample_selection 2
           (js "0f3e-text") eq_refl Hk).
Defined.

Lemma typed_keys_append_witness :
  Paint.selectedShape sample_selection = Some (2%nat, js "0f3e-text") /\
  shapes (sample_host SELECT (int 0) []) !! 2%nat
    = Some (Text (sample_text (js "AB"))) /\
  exists hs',
    handleAll (Paint.handleKeys [js "c"; js "Shift"; js "d"] sample_selection).2
      (sample_host SELECT (int 0) []) = Some hs' /\
    shapes hs' !! 2%nat = Some (Text (sample_text (js "ABcShiftd"))).
Proof.
  assert (Hk : Forall (fun key => key <> js "Enter" /\ key <> js "Backspace")
                 [js "c"; js "Shift"; js "d"])
    by (repeat constructor; discriminate).
  split; [reflexivity|]. split; [reflexivity|].
  destruct (typed_keys_append [js "c"; js "Shift"; js "d"]
              (sample_host SELECT (int 0) []) sample_selection 2
              (js "0f3e-text") (sample_text (js "AB")) eq_refl eq_refl Hk)
    as (hs' & Hkeys & Hall & Hsh).
  exists hs'. split.
  - rewrite Hkeys. exact Hall.
  - rewrite Hsh. reflexivity.
Defined.


Lemma stale_selection_throws_witness :
  Paint.selectedShape sample_selection = Some (2%nat, js "0f3e-text") /\
  (length (shapes (initial (Some []))) <= 2)%nat /\
  js "a" <> js "Enter" /\
  handle (Paint.onTextInput 2 (js "a")) (initial (Some [])) = None.
Proof.
  split; [reflexivity|]. split; [cbn; lia|]. split; [discriminate|].
  exact (proj2 (stale_selection_throws (initial (Some [])) sample_selection 2
                  (js "0f3e-text") (js "a") eq_refl ltac:(cbn; lia)
                  ltac:(discriminate))).
Defined.

Lemma updaters_out_of_range_witness :
  (length sample_shapes <= 3)%nat /\
  handleShapeMoveEnd 3 (point 1 2) sample_shapes = None.
Proof.
  split; [cbn; lia|].
  exact (proj2 (proj1 (updaters_out_of_range sample_shapes 3 (point 1 2)
                         {| size_width := int 1; size_height := int 1 |} []))
           ltac:(cbn; lia)).
Defined.

Lemma updaters_keep_identity_witness :
  handleShapeResizeEnd 1 {| size_width := int 9; size_height := int 5 |}
    sample_shapes
  = Some (<[1%nat := Ellipse (ellipse_set_radii (int 4) (int 2) sample_ellipse)]>
            sample_shapes) /\
  shape_key <$> <[1%nat := Ellipse (ellipse_set_radii (int 4) (int 2)
                                      sample_ellipse)]> sample_shapes
  = shape_key <$> sample_shapes.
Proof.
  split; [reflexivity|].
  exact (proj1 (proj2 (proj1 (updaters_keep_identity sample_shapes _ 1
                                (point 0 0)
                                {| size_width := int 9; size_height := int 5 |}
                                [])
                         (or_intror (or_introl eq_refl))))).
Defined.

Lemma rotate_quarter_turns_witness :
  bgImgRotation (sample_host SELECT (int 270) []) = int 270 /\
  -90 <= 270 /\
  270 + 90 <= 2 ^ 53 /\
  bgImgRotation (rotateBackgroundImage (sample_host SELECT (int 270) []))
  = int 0.
Proof.
  split; [reflexivity|]. split; [lia|]. split; [lia|].
  exact (proj1 (rotate_quarter_turns (sample_host SELECT (int 270) []) 270
                  eq_refl ltac:(lia) ltac:(lia))).
Defined.

Lemma rotate_not_finite_witness :
  is_finite (bgImgRotation (sample_host SELECT (Inf false) [])) = false /\
  bgImgRotation (rotateBackgroundImage (sample_host SELECT (Inf false) []))
  = NaN.
Proof.
  split; [reflexivity|].
  exact (proj1 (rotate_not_finite (sample_host SELECT (Inf false) []) eq_refl)).
Defined.


Lemma import_exported_text_witness :
  document_finite (sample_host SELECT (int 90) []) = true /\
  textAreaEl (initial (Some (stringify (document_value
                                          (sample_host SELECT (int 90) [])))))
  = textAreaEl (handleJSONExport (sample_host SELECT (int 90) [])) /\
  exists st' effects,
    handleJSONImport
      (initial (Some (stringify (document_value
                                   (sample_host SELECT (int 90) [])))))
      = Typed st' effects /\
    shapes st' = sample_shapes /\ bgImgRotation st' = int 90 /\
    bgImg st' = None /\
    effects = [loadImage (js "data:image/png;base64,iVBORw0KGgo=")].
Proof.
  split; [reflexivity|]. split; [reflexivity|].
  eexists _, _. split.
  - exact (import_exported_text (sample_host SELECT (int 90) [])
             (initial (Some (stringify (document_value
                                          (sample_host SELECT (int 90) [])))))
             _ eq_refl eq_refl eq_refl).
  - repeat split.
Defined.

Lemma import_background_image_witness :
  document_finite (initial (Some [])) = true /\
  textAreaEl (handleJSONExport (initial (Some [])))
  = Some (stringify (document_value (initial (Some [])))) /\
  exists st' effects,
    handleJSONImport
      (sample_host SELECT (int 90)
         (stringify (document_value (initial (Some [])))))
      = Typed st' effects /\
    shapes st' = [] /\ effects = [] /\
    bgImg st' = Some {| src := js "data:image/png;base64,iVBORw0KGgo=" |}.
Proof.
  split; [reflexivity|]. split; [reflexivity|].
  eexists _, _. split; [vm_compute; reflexivity|].
  split; [reflexivity|]. split; [reflexivity|].
  exact (proj1 (import_background_image (initial (Some []))
                  (sample_host SELECT (int 90)
                     (stringify (document_value (initial (Some [])))))
                  _ _ _ eq_refl eq_refl eq_refl eq_refl)).
Defined.


Lemma export_import_not_finite_witness :
  textAreaEl (sample_host SELECT (Inf true) []) = Some [] /\
  document_canonical (sample_host SELECT (Inf true) []) = true /\
  document_finite (sample_host SELECT (Inf true) []) = false /\
  alerted (handleJSONImport (handleJSONExport (sample_host SELECT (Inf true) [])))
  = false /\
  get (js "bgImgRotation")
    (clean (document_value (sample_host SELECT (Inf true) []))) = Some JNull.
Proof.
  split; [reflexivity|]. split; [reflexivity|]. split; [reflexivity|].
  destruct (export_import_not_finite (sample_host SELECT (Inf true) []) []
              eq_refl eq_refl eq_refl) as (_ & Ha & Hg).
  split; [exact Ha|exact (Hg eq_refl)].
Defined.

Lemma step_keeps_finite_witness :
  document_finite (sample_host SELECT (int 270) []) = true /\
  Event_finite rotate = true /\
  step rotate (sample_host SELECT (int 270) [])
  = Some (sample_host SELECT (int 0) []) /\
  document_finite (sample_host SELECT (int 0) []) = true.
Proof.
  split; [reflexivity|]. split; [reflexivity|]. split; [reflexivity|].
  exact (step_keeps_finite rotate (sample_host SELECT (int 270) [])
           (sample_host SELECT (int 0) []) eq_refl eq_refl eq_refl).
Defined.

Lemma reachable_documents_round_trip_witness :
  forallb Event_finite
    [drawModeChange RECT;
     callback (Paint.onDrawEnd (Some (Rect sample_rect)));
     rotate;
     callback (Paint.onShapeMoveEnd 0 (point 5 6));
     callback (Paint.onShapeResizeEnd 0
                 {| size_width := Fin 815 1; size_height := int 3 |});
     jsonExport] = true /\
  exists st,
    run [drawModeChange RECT;
         callback (Paint.onDrawEnd (Some (Rect sample_rect)));
         rotate;
         callback (Paint.onShapeMoveEnd 0 (point 5 6));
         callback (Paint.onShapeResizeEnd 0
                     {| size_width := Fin 815 1; size_height := int 3 |});
         jsonExport] (initial (Some [])) = Some st /\
    document_finite st = true /\
    bgImgRotation st = int 90 /\
    exists text,
      textAreaEl st = Some text /\
      handleJSONImport (sample_host SELECT (int 0) text)
      = Typed (setShapes (shapes st)
                 (setBgImgRotation (int 90) (sample_host SELECT (int 0) text)))
              [].
Proof.
  split; [reflexivity|].
  eexists. split; [vm_compute; reflexivity|].
  match goal with
  | |- document_finite ?st = true /\ _ =>
      destruct (reachable_documents_round_trip
                  [drawModeChange RECT;
                   callback (Paint.onDrawEnd (Some (Rect sample_rect)));
                   rotate;
                   callback (Paint.onShapeMoveEnd 0 (point 5 6));
                   callback (Paint.onShapeResizeEnd 0
                               {| size_width := Fin 815 1;
                                  size_height := int 3 |});
                   jsonExport] (Some []) st eq_refl
                  ltac:(vm_compute; reflexivity)) as [Hfin Himp]
  end.
  split; [exact Hfin|]. split; [reflexivity|].
  eexists. split; [reflexivity|].
  refine (Himp _ _ _ _); reflexivity.
Defined.

Lemma pen_colour_strings_witness :
  getRGBFromPenColor GREEN (Fin 3 1) = getRGBFromPenColor GREEN (Fin 3 1) /\
  exists rgb,
    getRGBFromPenColor GREEN (int 1) = js "rgba(" ++ rgb ++ js ",1)" /\
    getRGBFromPenColor GREEN (Fin 3 1) = js "rgba(" ++ rgb ++ js ",0.3)".
Proof.
  split; [reflexivity|].
  destruct (pen_colour_strings GREEN GREEN (Fin 3 1) (Fin 3 1)) as [Hinj Hrgb].
  destruct (Hinj eq_refl) as [_ _]. exact Hrgb.
Defined.

End MoreSamples.
